(** * To Do or Not To Do: the task store and the daily selection

    A shallow embedding of [src/context/TasksContext.js] (the provider that
    owns the task list) and of [handleSave] of [src/screens/AllTasksScreen.js],
    followed by the properties of the derived weight, of the store's
    operations and of [getEliminationCandidates].  A second part adds the
    daily check ([isNewDay], [updateLastActiveDate]), the two saving
    effects, the Today screen of [src/screens/EliminationScreen.js]
    ([todayTasks], [handleDayComplete], [promptForReprioritise]) and the
    edit form, with their properties.

    Conventions of the embedding.
    - A JavaScript string is a [string]; a character stands for one code unit
      below 256.  A number that the code computes with is a [Number]: an
      integer or [NaN].
    - A task object is a record with the nine fields the code reads and
      writes.  The lookup tables [TYPE_WEIGHTS] and [TIMING_WEIGHTS] are
      plain objects: a finite map of their own keys, over the property names
      they inherit from [Object.prototype].
    - The host supplies [String.prototype.localeCompare], [uuidv4] and
      [Date.now]; they are the fields of the class [Host].  The two
      generators are read through call counters kept in the state.
    - React state is threaded explicitly: [setTasks f] applies the updater
      [f] to the current list.  A function of the provider is a computation
      [M A]: from a state it completes normally with a value and a state, or
      abruptly with a thrown error.
    - A function of the context value that reads [tasks] or [lastActiveDate]
      ([getEliminationCandidates], [isNewDay]) reads those of the render that
      created it.  Applied to a state, it is the function of the render of
      that state; [asRendered r] gives the one of an earlier render [r].
    - An event handler of a screen returns or lets an exception escape
      ([Handled]); the updates it has queued are applied either way. *)

From Stdlib Require Import ZArith Lia Ascii String.
From stdpp Require Import gmap strings list fin_maps sorting.

Open Scope string_scope.
Open Scope Z_scope.

(** ** Numbers *)

(** The numbers of the program: the integers it computes with, and [NaN]. *)
Inductive Number := Num (z : Z) | NaN.
Coercion Num : Z >-> Number.

#[global] Instance Number_eq_dec : EqDecision Number :=
  λ a b,
    match a, b with
    | Num x, Num y =>
        match decide (x = y) with
        | left e => left (f_equal Num e)
        | right n =>
            right (λ E : Num x = Num y,
                     n (f_equal (λ v, match v with Num z => z | NaN => x end) E))
        end
    | NaN, NaN => left eq_refl
    | Num x, NaN =>
        right (λ E : Num x = NaN,
                 eq_ind (Num x) (λ v, match v with Num _ => True | NaN => False end) I NaN E)
    | NaN, Num y =>
        right (λ E : NaN = Num y,
                 eq_ind NaN (λ v, match v with Num _ => False | NaN => True end) I (Num y) E)
    end.

#[global] Instance Number_countable : Countable Number :=
  inj_countable'
    (λ n, match n with Num z => Some z | NaN => None end)
    (λ o, match o with Some z => Num z | None => NaN end)
    (λ n, match n with Num _ => eq_refl | NaN => eq_refl end).

(** [a * b] and [a - b]. *)
Definition Number_mul (a b : Number) : Number :=
  match a, b with
  | Num x, Num y => Num (x * y)
  | _, _ => NaN
  end.

Definition Number_sub (a b : Number) : Number :=
  match a, b with
  | Num x, Num y => Num (x - y)
  | _, _ => NaN
  end.

(** [a !== b] on numbers: [NaN] differs from every number, itself included. *)
Definition strictNotEqual (a b : Number) : bool :=
  match a, b with
  | Num x, Num y => negb (x =? y)
  | _, _ => true
  end.


(** ** Tasks *)

Record Task := mkTask {
  id : string;
  name : string;
  type : string;
  timing : string;
  weight : Number;
  completed : bool;
  todaySelected : bool;
  createdAt : Z;
  updatedAt : Z
}.

(** Object spread with one overridden property, [{ ...t, field: v }]. *)
Definition set_weight (w : Number) (t : Task) : Task :=
  mkTask (id t) (name t) (type t) (timing t) w
         (completed t) (todaySelected t) (createdAt t) (updatedAt t).

Definition set_completed (c : bool) (t : Task) : Task :=
  mkTask (id t) (name t) (type t) (timing t) (weight t)
         c (todaySelected t) (createdAt t) (updatedAt t).

Definition set_todaySelected (b : bool) (t : Task) : Task :=
  mkTask (id t) (name t) (type t) (timing t) (weight t)
         (completed t) b (createdAt t) (updatedAt t).

Definition set_updatedAt (n : Z) (t : Task) : Task :=
  mkTask (id t) (name t) (type t) (timing t) (weight t)
         (completed t) (todaySelected t) (createdAt t) n.

(** The [updates] argument of [updateTask]: an object holding any subset of
    a task's properties. *)
Record Updates := mkUpdates {
  u_id : option string;
  u_name : option string;
  u_type : option string;
  u_timing : option string;
  u_weight : option Number;
  u_completed : option bool;
  u_todaySelected : option bool;
  u_createdAt : option Z;
  u_updatedAt : option Z
}.

Definition no_updates : Updates :=
  mkUpdates None None None None None None None None None.

(** [{ ...t, ...updates }]: a property of [updates] replaces that of [t]. *)
Definition spread (t : Task) (u : Updates) : Task :=
  mkTask (default (id t) (u_id u))
         (default (name t) (u_name u))
         (default (type t) (u_type u))
         (default (timing t) (u_timing u))
         (default (weight t) (u_weight u))
         (default (completed t) (u_completed u))
         (default (todaySelected t) (u_todaySelected u))
         (default (createdAt t) (u_createdAt u))
         (default (updatedAt t) (u_updatedAt u)).

(** ** The derived weight *)

Definition TYPE_WEIGHTS : gmap string Z :=
  <["Want" := 1]> (<["Need" := 2]> (<["Both" := 3]> ∅)).

Definition TIMING_WEIGHTS : gmap string Z :=
  <["Today" := 2]> (<["Later" := 1]> ∅).

(** The names of the properties that a plain object inherits from
    [Object.prototype]; each of them is a function, or for [__proto__] the
    prototype object itself. *)
Definition Object_prototype : list string :=
  [ "constructor"; "__defineGetter__"; "__defineSetter__"; "hasOwnProperty";
    "__lookupGetter__"; "__lookupSetter__"; "isPrototypeOf";
    "propertyIsEnumerable"; "toString"; "valueOf"; "__proto__";
    "toLocaleString" ].

(** What a property read of a table yields: [undefined], a number, or a
    function or object. *)
Inductive Value := VUndefined | VNumber (n : Number) | VObject.

(** [table[key]]: the table's own property, else the inherited one, else
    [undefined]. *)
Definition getProperty (table : gmap string Z) (key : string) : Value :=
  match (table !! key : option Z) with
  | Some v => VNumber (Num v)
  | None => if bool_decide (key ∈ Object_prototype) then VObject else VUndefined
  end.

(** [v || d]: [undefined], [0] and [NaN] are falsy, an object is truthy. *)
Definition or_default (v : Value) (d : Z) : Value :=
  match v with
  | VUndefined => VNumber d
  | VNumber (Num z) => if z =? 0 then VNumber d else v
  | VNumber NaN => VNumber d
  | VObject => VObject
  end.

(** The conversion of an operand of [*]: a function or a plain object
    converts to [NaN]. *)
Definition ToNumber (v : Value) : Number :=
  match v with
  | VNumber n => n
  | VUndefined => NaN
  | VObject => NaN
  end.

Definition computeWeight (task : Task) : Number :=
  let typeWeight := or_default (getProperty TYPE_WEIGHTS (type task)) 1 in
  let timingWeight := or_default (getProperty TIMING_WEIGHTS (timing task)) 1 in
  Number_mul (ToNumber typeWeight) (ToNumber timingWeight).

(** The weight table as the documentation words it, to be compared with
    [computeWeight]. *)
Definition typeWeight_spec (ty : string) : Z :=
  if decide (ty = "Want") then 1
  else if decide (ty = "Need") then 2
  else if decide (ty = "Both") then 3
  else 1.

Definition timingWeight_spec (tm : string) : Z :=
  if decide (tm = "Today") then 2
  else if decide (tm = "Later") then 1
  else 1.

(** A task whose stored weight is the one that [computeWeight] gives for
    its type and timing. *)
Definition weightComputed (t : Task) : Prop :=
  weight t = computeWeight t.

(** A task whose stored weight is the one that [computeWeight] gives for
    its type and timing, and is a number: then it is the product of the
    table (lemma [weightDerived_table]). *)
Definition weightDerived (t : Task) : Prop :=
  weight t = computeWeight t ∧ weight t ≠ NaN.

(** ** Strings: [String.prototype.trim] *)

(** White space and line terminators among the code units below 256:
    TAB, LF, VT, FF, CR, SP and NBSP. *)
Definition isWhiteSpace (c : ascii) : bool :=
  let n := nat_of_ascii c in
  ((9 <=? n) && (n <=? 13) || (n =? 32) || (n =? 160))%nat.

Fixpoint trimStart (s : string) : string :=
  match s with
  | EmptyString => EmptyString
  | String c s' => if isWhiteSpace c then trimStart s' else s
  end.

Fixpoint trimEnd (s : string) : string :=
  match s with
  | EmptyString => EmptyString
  | String c s' =>
      match trimEnd s' with
      | EmptyString => if isWhiteSpace c then EmptyString else String c EmptyString
      | r => String c r
      end
  end.

Definition trim (s : string) : string := trimEnd (trimStart s).

(** ** Arrays: [sort], [Set], [includes] *)

(** What [sort] makes of a comparator's result: [NaN] counts as [0]. *)
Definition sortCompare (v : Number) : Z :=
  match v with
  | Num z => z
  | NaN => 0
  end.

(** [Array.prototype.sort] with a comparator.  The language fixes the result
    for a consistent comparator (sorted and stable), which is what a stable
    insertion computes: an element is placed before the first later element
    it does not exceed. *)
Fixpoint sort_insert {A} (cmp : A → A → Number) (x : A) (l : list A) : list A :=
  match l with
  | [] => [x]
  | y :: l' => if sortCompare (cmp x y) <=? 0 then x :: l else y :: sort_insert cmp x l'
  end.

Definition sort {A} (cmp : A → A → Number) (l : list A) : list A :=
  foldr (sort_insert cmp) [] l.

(** [Array.from(new Set(l))]: the distinct values in order of first
    occurrence ([NaN] equal to itself, as [Set] has it). *)
Definition Set_add (s : list Number) (x : Number) : list Number :=
  if bool_decide (x ∈ s) then s else s ++ [x].

Definition Set_from (l : list Number) : list Number := foldl Set_add [] l.

(** [l.includes(x)], for which [NaN] equals itself too. *)
Definition includes (l : list Number) (x : Number) : bool := bool_decide (x ∈ l).

(** ** The host, the state and the computations *)

Class Host := {
  localeCompare : string → string → Z;
  uuidv4 : nat → string;
  Date_now : nat → Z
}.

Record State := mkState {
  tasks : list Task;
  lastActiveDate : option string;
  isInitialised : bool;
  uuidCalls : nat;
  clockCalls : nat
}.

(** The state of a freshly mounted provider: [useState([])],
    [useState(null)], [useState(false)]. *)
Definition initialState : State := mkState [] None false 0 0.

(** Error kinds of the application's documentation.  None of the functions
    below contains a [throw]. *)
Inductive Error := ValidationError | NotFoundError | PersistenceError.

Inductive Completion (A : Type) :=
| Normal (v : A) (s : State)
| Throw (e : Error).
Arguments Normal {A} v s.
Arguments Throw {A} e.

(** The value of a call to a function without [return]. *)
Inductive Undefined := undefined.

Definition M (A : Type) : Type := State → Completion A.

(** How an event handler of a screen ends: it returns a value, or an
    exception escapes it. *)
Inductive Exception := TypeError.

Inductive Handled (A : Type) :=
| Returned (v : A)
| Uncaught (e : Exception).
Arguments Returned {A} v.
Arguments Uncaught {A} e.

(** [Haptics.notificationAsync(...)] in the two screens.  [Haptics] is the
    default import of [expo-haptics], a module that has named exports only:
    the binding is [undefined], and reading its property throws. *)
Definition Haptics_notificationAsync : Handled Undefined := Uncaught TypeError.

#[global] Instance M_ret : MRet M := λ A v s, Normal v s.
#[global] Instance M_bind : MBind M := λ A B k m s,
  match m s with
  | Normal v s' => k v s'
  | Throw e => Throw e
  end.

Fixpoint mapM {A B} (f : A → M B) (l : list A) : M (list B) :=
  match l with
  | [] => mret []
  | x :: l' => y ← f x; ys ← mapM f l'; mret (y :: ys)
  end.

Definition setTasks (updater : list Task → M (list Task)) : M Undefined :=
  λ s,
    match updater (tasks s) s with
    | Normal l s' =>
        Normal undefined
          (mkState l (lastActiveDate s') (isInitialised s') (uuidCalls s') (clockCalls s'))
    | Throw e => Throw e
    end.

Definition setLastActiveDate (d : option string) : M Undefined :=
  λ s, Normal undefined
         (mkState (tasks s) d (isInitialised s) (uuidCalls s) (clockCalls s)).

Definition setIsInitialised (b : bool) : M Undefined :=
  λ s, Normal undefined
         (mkState (tasks s) (lastActiveDate s) b (uuidCalls s) (clockCalls s)).

Section Provider.
Context `{Host}.

Definition call_uuidv4 : M string :=
  λ s, Normal (uuidv4 (uuidCalls s))
         (mkState (tasks s) (lastActiveDate s) (isInitialised s)
                  (S (uuidCalls s)) (clockCalls s)).

Definition call_Date_now : M Z :=
  λ s, Normal (Date_now (clockCalls s))
         (mkState (tasks s) (lastActiveDate s) (isInitialised s)
                  (uuidCalls s) (S (clockCalls s))).

(** What the two reads of storage and [JSON.parse] deliver to [init]: the
    parsed task list (or nothing under the key) with the stored date, or a
    failure that the [catch] clause logs. *)
Inductive Storage :=
| Readable (tasksJSON : option (list Task)) (dateStr : option string)
| Unreadable.

Definition sampleTask (nm ty tm : string) : M Task :=
  i ← call_uuidv4;
  c ← call_Date_now;
  u ← call_Date_now;
  mret (mkTask i nm ty tm 0 false false c u).

Definition init (st : Storage) : M Undefined :=
  match st with
  | Readable tasksJSON dateStr =>
      _ ← match tasksJSON with
          | Some parsed =>
              let withWeights := (λ t, set_weight (computeWeight t) t) <$> parsed in
              setTasks (λ _, mret withWeights)
          | None =>
              t1 ← sampleTask "Read a book" "Want" "Later";
              t2 ← sampleTask "Pay bills" "Need" "Today";
              t3 ← sampleTask "Exercise" "Both" "Today";
              let sample := [t1; t2; t3] in
              let sampleWithWeights := (λ t, set_weight (computeWeight t) t) <$> sample in
              setTasks (λ _, mret sampleWithWeights)
          end;
      _ ← setLastActiveDate dateStr;
      setIsInitialised true
  | Unreadable => setIsInitialised true
  end.

Definition addTask (nm ty tm : string) : M Undefined :=
  i ← call_uuidv4;
  c ← call_Date_now;
  u ← call_Date_now;
  let newTask := mkTask i (trim nm) ty tm 0 false false c u in
  let newTask := set_weight (computeWeight newTask) newTask in
  setTasks (λ prev, mret (newTask :: prev)).

Definition updateTask (i : string) (updates : Updates) : M Undefined :=
  setTasks (mapM (λ t,
    if negb (id t =? i)%string then mret t
    else
      now ← call_Date_now;
      let updated := set_updatedAt now (spread t updates) in
      mret (set_weight (computeWeight updated) updated))).

Definition removeTask (i : string) : M Undefined :=
  setTasks (λ prev, mret (filter (λ t, id t ≠ i) prev)).

Definition toggleCompleted (i : string) : M Undefined :=
  setTasks (mapM (λ t,
    if (id t =? i)%string then
      now ← call_Date_now;
      mret (set_updatedAt now
              (set_todaySelected (if completed t then todaySelected t else false)
                 (set_completed (negb (completed t)) t)))
    else mret t)).

Definition setTodaySelected (i : string) (selected : bool) : M Undefined :=
  setTasks (mapM (λ t,
    if (id t =? i)%string then
      now ← call_Date_now;
      mret (set_updatedAt now (set_todaySelected selected t))
    else mret t)).

Definition clearTodaySelections : M Undefined :=
  setTasks (λ prev, mret (set_todaySelected false <$> prev)).

(** [t'] is [t] after an operation on the id [i] that stamps the tasks it
    changes: a task with that id carries a reading of the clock in
    [updatedAt], any other task is as it was. *)
Definition updatedAtRefreshed (i : string) (t t' : Task) : Prop :=
  if (id t =? i)%string then ∃ n, updatedAt t' = Date_now n else t' = t.

(** The comparator of [getEliminationCandidates]: weight descending, then
    name by [localeCompare]. *)
Definition compareTasks (a b : Task) : Number :=
  if strictNotEqual (weight b) (weight a) then Number_sub (weight b) (weight a)
  else Num (localeCompare (name a) (name b)).

Definition getEliminationCandidates : M (list Task) :=
  λ s,
    let pending := filter (λ t, completed t = false) (tasks s) in
    let sorted := sort compareTasks pending in
    let uniqueWeights :=
      take 5 (sort (λ a b, Number_sub b a) (Set_from (weight <$> sorted))) in
    let filtered := filter (λ t, includes uniqueWeights (weight t) = true) sorted in
    Normal (take 10 filtered) s.

(** ** The add/edit form of the task list screen *)

Record Form := mkForm {
  editingTask : option Task;
  nameInput : string;
  typeInput : string;
  timingInput : string
}.

(** What [handleSave] shows the user: the alert, or the closed modal. *)
Inductive SaveResult := Alerted (message : string) | ModalClosed.

Definition handleSave (f : Form) : M (Handled SaveResult) :=
  let trimmed := trim (nameInput f) in
  if (trimmed =? "")%string then mret (Returned (Alerted "Please enter a task name."))
  else
    _ ← match editingTask f with
        | Some t =>
            updateTask (id t)
              (mkUpdates None (Some trimmed) (Some (typeInput f)) (Some (timingInput f))
                         None None None None None)
        | None => addTask trimmed (typeInput f) (timingInput f)
        end;
    match Haptics_notificationAsync with
    | Uncaught e => mret (Uncaught e)
    | Returned _ => mret (Returned ModalClosed)
    end.

(** ** Sequences of operations *)

Inductive Op :=
| OInit (st : Storage)
| OAddTask (nm ty tm : string)
| OUpdateTask (i : string) (updates : Updates)
| ORemoveTask (i : string)
| OToggleCompleted (i : string)
| OSetTodaySelected (i : string) (selected : bool)
| OClearTodaySelections.

Definition runOp (o : Op) : M Undefined :=
  match o with
  | OInit st => init st
  | OAddTask nm ty tm => addTask nm ty tm
  | OUpdateTask i u => updateTask i u
  | ORemoveTask i => removeTask i
  | OToggleCompleted i => toggleCompleted i
  | OSetTodaySelected i b => setTodaySelected i b
  | OClearTodaySelections => clearTodaySelections
  end.

Fixpoint runOps (os : list Op) : M Undefined :=
  match os with
  | [] => mret undefined
  | o :: os' => _ ← runOp o; runOps os'
  end.

End Provider.

(** A concrete host for examples: names compared code unit by code unit,
    identifiers numbered, a clock that ticks once per reading. *)
Definition compareCodeUnits (a b : string) : Z :=
  match String.compare a b with
  | Lt => -1
  | Eq => 0
  | Gt => 1
  end.

Definition exampleHost : Host := {|
  localeCompare := compareCodeUnits;
  uuidv4 := λ n, String (ascii_of_nat (48 + n)) EmptyString;
  Date_now := λ n, 1000 + Z.of_nat n
|}.


(** States used in the examples below. *)
Definition exampleTasks : list Task :=
  [ mkTask "a" "Read a book" "Want" "Later" 1 false true 10 10;
    mkTask "b" "Pay bills" "Need" "Today" 4 true false 20 25;
    mkTask "c" "Exercise" "Both" "Today" 6 false false 30 30;
    mkTask "d" "Call home" "Need" "Today" 4 false true 40 40 ].

Definition exampleState : State := mkState exampleTasks None true 4 9.

(** A persisted list with a weight left over from another scheme, and a
    session that starts by loading it. *)
Definition staleTasks : list Task :=
  [ mkTask "p" "Water plants" "Need" "Later" 7 false true 5 6 ].

Definition exampleSession : list Op :=
  [ OInit (Readable (Some staleTasks) (Some "2024-01-01"));
    OAddTask " Buy milk " "Want" "Today";
    OUpdateTask "p" (mkUpdates None None (Some "Both") None (Some (Num 99)) None None None None);
    OToggleCompleted "p";
    OSetTodaySelected "0" true;
    OClearTodaySelections;
    ORemoveTask "0" ].

(** ** The calendar day, the screens and the persisted state *)

(** The host's rendering of an instant as a calendar date,
    [new Date(ms).toISOString().split('T')[0]]. *)
Class Calendar := {
  toISODate : Z → string
}.

(** Between [s] and [s'] only the task list and the count of clock
    readings may differ, and the clock has not gone back. *)
Definition sameSession (s s' : State) : Prop :=
  lastActiveDate s' = lastActiveDate s ∧
  isInitialised s' = isInitialised s ∧
  uuidCalls s' = uuidCalls s ∧
  (clockCalls s ≤ clockCalls s')%nat.

(** The value of [lastActiveDate] that a function of the provider sees:
    the one of the render that created the function, here the render of
    the state it is applied to. *)
Definition getLastActiveDate : M (option string) :=
  λ s, Normal (lastActiveDate s) s.

(** A reader of the context value created by the render of [r], called
    when the state has become [s]: it sees the tasks and the date of [r],
    reads the live clock, and leaves the state as it is. *)
Definition asRendered {A} (r : State) (reader : M A) : M A :=
  λ s,
    match reader (mkState (tasks r) (lastActiveDate r) (isInitialised r)
                          (uuidCalls s) (clockCalls s)) with
    | Normal v s' =>
        Normal v (mkState (tasks s) (lastActiveDate s) (isInitialised s)
                          (uuidCalls s') (clockCalls s'))
    | Throw e => Throw e
    end.

Fixpoint forEach {A} (f : A → M Undefined) (l : list A) : M Undefined :=
  match l with
  | [] => mret undefined
  | x :: l' => _ ← f x; forEach f l'
  end.

Section Daily.
Context `{Host} `{Calendar}.

(** [new Date().toISOString().split('T')[0]]: one reading of the clock. *)
Definition todayStr : M string :=
  now ← call_Date_now;
  mret (toISODate now).

Definition isNewDay : M bool :=
  today ← todayStr;
  last ← getLastActiveDate;
  mret (bool_decide (last ≠ Some today)).

Definition updateLastActiveDate : M Undefined :=
  today ← todayStr;
  setLastActiveDate (Some today).

(** The Today screen: the list it derives from the store at each render,
    the "Day Complete" button and the two answers to the re-prioritise
    prompt (the value is the screen navigated to, if any). *)
Definition todayTasks (ts : list Task) : list Task :=
  sort compareTasks (filter (λ t, todaySelected t && negb (completed t) = true) ts).

Definition handleDayComplete : M (Handled (string * string)) :=
  λ s,
    (_ ← forEach (λ task, toggleCompleted (id task)) (todayTasks (tasks s));
     match Haptics_notificationAsync with
     | Uncaught e => mret (Uncaught e)
     | Returned _ =>
         mret (Returned ("Great job!", "You have completed your tasks for today."))
     end) s.

Definition promptForReprioritise (yes : bool) : M (option string) :=
  if yes then
    _ ← clearTodaySelections;
    mret (Some "Elimination")
  else
    _ ← updateLastActiveDate;
    mret None.

End Daily.

(** The task list screen: the two ways of opening the form. *)
Definition openAddModal : Form := mkForm None "" "Want" "Today".

Definition openEditModal (task : Task) : Form :=
  mkForm (Some task) (name task) (type task) (timing task).

(** What the device keeps under the keys [@tasks] and [@lastActiveDate].
    The item of [@tasks] is absent (or the empty string), a text that
    [JSON.parse] turns into a task list, or a text on which it throws.
    [Parsable l] is the text that [JSON.stringify] writes for [l]: a weight
    that is [NaN] in [l] is [null] in the text and in what is parsed from
    it, a difference that [init], which reads no weight, does not see. *)
Inductive StoredTasks :=
| NoItem
| Parsable (l : list Task)
| Unparsable.

Record Disk := mkDisk {
  tasksItem : StoredTasks;
  dateItem : option string
}.

(** The two [getItem] reads and [JSON.parse] at mount. *)
Definition readDisk (d : Disk) : Storage :=
  match tasksItem d with
  | NoItem => Readable None (dateItem d)
  | Parsable l => Readable (Some l) (dateItem d)
  | Unparsable => Unreadable
  end.

(** One run of each of the two saving effects, the write succeeding:
    nothing is written before [isInitialised], and the date only when
    [lastActiveDate] is truthy. *)
Definition persistTasks (s : State) (d : Disk) : Disk :=
  if negb (isInitialised s) then d
  else mkDisk (Parsable (tasks s)) (dateItem d).

Definition persistLastActiveDate (s : State) (d : Disk) : Disk :=
  if negb (isInitialised s) then d
  else
    match lastActiveDate s with
    | Some ds => if (ds =? "")%string then d else mkDisk (tasksItem d) (Some ds)
    | None => d
    end.

Definition persist (s : State) (d : Disk) : Disk :=
  persistLastActiveDate s (persistTasks s d).

(** Operations that cannot bring an id into the store other than by
    [uuidv4]: everything but a load of persisted tasks and an update that
    carries an id. *)
Definition keepsIds (o : Op) : bool :=
  match o with
  | OInit (Readable (Some _) _) => false
  | OUpdateTask _ u => bool_decide (u_id u = None)
  | _ => true
  end.

(** The ids of the store are distinct and each was issued by one of the
    calls of [uuidv4] made so far. *)
Definition idsIssued `{Host} (s : State) : Prop :=
  NoDup (id <$> tasks s) ∧
  Forall (λ i, ∃ k, (k < uuidCalls s)%nat ∧ i = uuidv4 k) (id <$> tasks s).

(** A host whose identifiers never repeat: the n-th is a tally of n marks. *)
Fixpoint tally (n : nat) : string :=
  match n with
  | O => EmptyString
  | S n' => String "|"%char (tally n')
  end.

Definition tallyHost : Host := {|
  localeCompare := compareCodeUnits;
  uuidv4 := tally;
  Date_now := λ n, 1000 + Z.of_nat n
|}.

(** A session without a load and without an update of an id. *)
Definition idSession : list Op :=
  [ OInit (Readable None None);
    OAddTask "Buy milk" "Want" "Today";
    OUpdateTask "|" (mkUpdates None (Some "Pay rent") None None None None None None None);
    OToggleCompleted "||";
    ORemoveTask "";
    OAddTask "Water plants" "Need" "Later";
    OClearTodaySelections ].



(** A calendar for examples: a day of 86 400 000 ms, numbered from 0. *)
Definition exampleCalendar : Calendar := {|
  toISODate := λ ms, if ms / 86400000 =? 0 then "1970-01-01" else "later"
|}.

(** The example store with a day recorded. *)
Definition dayState : State := mkState exampleTasks (Some "1970-01-01") true 4 9.

(** ** Computations: basic facts *)

Lemma bind_Normal {A B} (m : M A) (k : A → M B) s v s' :
  m s = Normal v s' → (m ≫= k) s = k v s'.
Proof. intros E. unfold mbind, M_bind. by rewrite E. Qed.

Lemma setTasks_Normal (f : list Task → M (list Task)) s l s' :
  f (tasks s) s = Normal l s' →
  setTasks f s =
    Normal undefined
      (mkState l (lastActiveDate s') (isInitialised s') (uuidCalls s') (clockCalls s')).
Proof. intros E. unfold setTasks. by rewrite E. Qed.

Lemma State_eta s :
  mkState (tasks s) (lastActiveDate s) (isInitialised s) (uuidCalls s) (clockCalls s) = s.
Proof. by destruct s. Qed.

(** A callback that always completes normally and relates its argument to
    its result by [R] makes [map] complete normally with related lists. *)
Lemma mapM_Forall2 {A B} (f : A → M B) (R : A → B → Prop) l :
  (∀ x s, ∃ y s', f x s = Normal y s' ∧ R x y) →
  ∀ s, ∃ l' s', mapM f l s = Normal l' s' ∧ Forall2 R l l'.
Proof.
  intros Hf. induction l as [|x l IH]; intros s.
  - exists [], s. split; [reflexivity | constructor].
  - destruct (Hf x s) as (y & s1 & Ey & Hy).
    destruct (IH s1) as (ys & s2 & Eys & Hys).
    exists (y :: ys), s2. split; [| by constructor].
    cbn [mapM]. rewrite (bind_Normal _ _ _ _ _ Ey).
    by rewrite (bind_Normal _ _ _ _ _ Eys).
Qed.

Lemma setTasks_mapM_Forall2 (f : Task → M Task) (R : Task → Task → Prop) s :
  (∀ x s0, ∃ y s1, f x s0 = Normal y s1 ∧ R x y) →
  ∃ s', setTasks (mapM f) s = Normal undefined s' ∧ Forall2 R (tasks s) (tasks s').
Proof.
  intros Hf. destruct (mapM_Forall2 f R (tasks s) Hf s) as (l' & s1 & E & HF).
  rewrite (setTasks_Normal _ _ _ _ E). eexists. split; [reflexivity | exact HF].
Qed.

(** A callback that returns every element of the list unchanged, without an
    effect, makes [map] return a copy and leave the state alone. *)
Lemma mapM_unchanged {A} (f : A → M A) l :
  (∀ x, x ∈ l → f x = mret x) →
  ∀ s, mapM f l s = Normal l s.
Proof.
  induction l as [|x l IH]; intros Hf s; [reflexivity |].
  cbn [mapM].
  rewrite (bind_Normal _ _ s x s) by (rewrite Hf; [reflexivity | left]).
  rewrite (bind_Normal _ _ s l s); [reflexivity |].
  apply IH. intros y Hy. apply Hf. by right.
Qed.

(** ** The weight table *)

Lemma typeWeight_table ty :
  ty ∉ Object_prototype →
  or_default (getProperty TYPE_WEIGHTS ty) 1 = VNumber (Num (typeWeight_spec ty)).
Proof.
  intros Hty. unfold getProperty, TYPE_WEIGHTS, typeWeight_spec.
  rewrite !lookup_insert, lookup_empty.
  repeat case_decide; simplify_eq; try reflexivity;
    try (by rewrite bool_decide_eq_false_2); done.
Qed.

Lemma timingWeight_table tm :
  tm ∉ Object_prototype →
  or_default (getProperty TIMING_WEIGHTS tm) 1 = VNumber (Num (timingWeight_spec tm)).
Proof.
  intros Htm. unfold getProperty, TIMING_WEIGHTS, timingWeight_spec.
  rewrite !lookup_insert, lookup_empty.
  repeat case_decide; simplify_eq; try reflexivity;
    try (by rewrite bool_decide_eq_false_2); done.
Qed.

Lemma typeWeight_inherited ty :
  ty ∈ Object_prototype → or_default (getProperty TYPE_WEIGHTS ty) 1 = VObject.
Proof.
  unfold Object_prototype. intros Hty.
  repeat (apply elem_of_cons in Hty as [-> | Hty]; [vm_compute; reflexivity |]).
  by apply elem_of_nil in Hty.
Qed.

Lemma timingWeight_inherited tm :
  tm ∈ Object_prototype → or_default (getProperty TIMING_WEIGHTS tm) 1 = VObject.
Proof.
  unfold Object_prototype. intros Htm.
  repeat (apply elem_of_cons in Htm as [-> | Htm]; [vm_compute; reflexivity |]).
  by apply elem_of_nil in Htm.
Qed.

(** Away from the inherited names the weight is the product of the table. *)
Lemma computeWeight_table t :
  type t ∉ Object_prototype →
  timing t ∉ Object_prototype →
  computeWeight t = Num (typeWeight_spec (type t) * timingWeight_spec (timing t)).
Proof.
  intros Hty Htm. unfold computeWeight.
  by rewrite (typeWeight_table _ Hty), (timingWeight_table _ Htm).
Qed.

(** The weight is [NaN] exactly on the inherited names. *)
Lemma computeWeight_NaN_iff t :
  computeWeight t = NaN ↔ type t ∈ Object_prototype ∨ timing t ∈ Object_prototype.
Proof.
  destruct (decide (type t ∈ Object_prototype)) as [Hty | Hty].
  { split; [by left |]. intros _. unfold computeWeight.
    by rewrite (typeWeight_inherited _ Hty). }
  destruct (decide (timing t ∈ Object_prototype)) as [Htm | Htm].
  { split; [by right |]. intros _. unfold computeWeight.
    rewrite (typeWeight_table _ Hty), (timingWeight_inherited _ Htm). reflexivity. }
  rewrite (computeWeight_table t Hty Htm). split; [discriminate | tauto].
Qed.

Lemma table_product_values (ty tm : string) :
  Num (typeWeight_spec ty * timingWeight_spec tm) ∈ [Num 1; Num 2; Num 3; Num 4; Num 6].
Proof.
  unfold typeWeight_spec, timingWeight_spec.
  apply list_elem_of_In. repeat case_decide; simpl; auto 10.
Qed.

(** C3. On a task whose type names a property that the table inherits from
    [Object.prototype], [computeWeight] does not take factor 1 for the
    unrecognised type: with type [constructor] and timing [Today] it returns
    [NaN], where the table of the specification gives 1 × 2 = 2. *)
Theorem computeWeight_inherited_type :
  computeWeight (mkTask "a" "Nap" "constructor" "Today" 0 false false 0 0) = NaN ∧
  typeWeight_spec "constructor" * timingWeight_spec "Today" = 2 ∧
  computeWeight (mkTask "a" "Nap" "constructor" "Today" 0 false false 0 0) ≠
    Num (typeWeight_spec "constructor" * timingWeight_spec "Today").
Proof. split; [reflexivity |]. split; [reflexivity | discriminate]. Qed.

(** ** Completion toggling *)

Section Toggle.
Context `{Host}.

Lemma toggleCompleted_Forall2 i s :
  ∃ s', toggleCompleted i s = Normal undefined s' ∧
    Forall2 (λ t t',
      if (id t =? i)%string then
        ∃ n, t' = set_updatedAt (Date_now n)
                    (set_todaySelected (if completed t then todaySelected t else false)
                       (set_completed (negb (completed t)) t))
      else t' = t) (tasks s) (tasks s').
Proof.
  unfold toggleCompleted. apply setTasks_mapM_Forall2.
  intros t s0. destruct (id t =? i)%string.
  - eexists _, _. split; [reflexivity |]. eexists. reflexivity.
  - exists t, s0. split; reflexivity.
Qed.

(** C4. For every task in the store, [toggleCompleted] called with its id
    completes normally, flips the task's [completed] flag and sets its
    [todaySelected] flag to the old flag when the task was completed before
    the call and to [false] when it was not. *)
Theorem toggleCompleted_flips (s : State) (k : nat) (t : Task) :
  tasks s !! k = Some t →
  ∃ s' t',
    toggleCompleted (id t) s = Normal undefined s' ∧
    tasks s' !! k = Some t' ∧
    completed t' = negb (completed t) ∧
    todaySelected t' = (if completed t then todaySelected t else false).
Proof.
  intros Hk.
  destruct (toggleCompleted_Forall2 (id t) s) as (s' & E & HF).
  destruct (Forall2_lookup_l _ _ _ _ _ HF Hk) as (t' & Hk' & Ht').
  rewrite String.eqb_refl in Ht'. destruct Ht' as (n & ->).
  eexists s', _. split; [exact E |]. split; [exact Hk' |]. split; reflexivity.
Qed.

End Toggle.

Lemma toggleCompleted_flips_witness :
  ∃ s' t',
    toggleCompleted (H:=exampleHost) "b" exampleState = Normal undefined s' ∧
    tasks s' !! 1%nat = Some t' ∧
    completed t' = negb true ∧
    todaySelected t' = false.
Proof.
  apply (toggleCompleted_flips (H:=exampleHost) exampleState 1
           (mkTask "b" "Pay bills" "Need" "Today" 4 true false 20 25)).
  reflexivity.
Defined.

Lemma toggleCompleted_keeps_selection_counterexample :
  ¬ (∃ s1 t1,
       toggleCompleted (H:=exampleHost) "a" exampleState = Normal undefined s1 ∧
       tasks s1 !! 0%nat = Some t1 ∧
       completed t1 = true ∧ todaySelected t1 = true).
Proof.
  intros (s1 & t1 & E & Hk & _ & Hsel).
  vm_compute in E. injection E as <-.
  vm_compute in Hk. injection Hk as <-.
  discriminate Hsel.
Qed.

Section ToggleTwice.
Context `{Host}.

(** C5, amended. For every task of the store that is selected for today and
    not completed, a first call of [toggleCompleted] makes it completed and
    clears [todaySelected]; a second call makes it incomplete again and
    leaves [todaySelected] as it found it, [false]. *)
Theorem toggleCompleted_twice (s : State) (k : nat) (t : Task) :
  tasks s !! k = Some t →
  completed t = false →
  todaySelected t = true →
  ∃ s1 t1 s2 t2,
    toggleCompleted (id t) s = Normal undefined s1 ∧
    tasks s1 !! k = Some t1 ∧
    completed t1 = true ∧ todaySelected t1 = false ∧
    toggleCompleted (id t) s1 = Normal undefined s2 ∧
    tasks s2 !! k = Some t2 ∧
    completed t2 = false ∧ todaySelected t2 = false.
Proof.
  intros Hk Hc Hsel.
  destruct (toggleCompleted_Forall2 (id t) s) as (s1 & E1 & HF1).
  destruct (Forall2_lookup_l _ _ _ _ _ HF1 Hk) as (t1 & Hk1 & Ht1).
  rewrite String.eqb_refl in Ht1. destruct Ht1 as (now1 & ->).
  destruct (toggleCompleted_Forall2 (id t) s1) as (s2 & E2 & HF2).
  destruct (Forall2_lookup_l _ _ _ _ _ HF2 Hk1) as (t2 & Hk2 & Ht2).
  cbn [id set_updatedAt set_todaySelected set_completed] in Ht2.
  rewrite String.eqb_refl in Ht2. destruct Ht2 as (now2 & ->).
  eexists s1, _, s2, _.
  split; [exact E1 |]. split; [exact Hk1 |].
  split; [cbn; by rewrite Hc |]. split; [cbn; by rewrite Hc |].
  split; [exact E2 |]. split; [exact Hk2 |].
  cbn. rewrite Hc. cbn. split; reflexivity.
Qed.

End ToggleTwice.

Lemma toggleCompleted_twice_witness :
  ∃ s1 t1 s2 t2,
    toggleCompleted (H:=exampleHost) "a" exampleState = Normal undefined s1 ∧
    tasks s1 !! 0%nat = Some t1 ∧
    completed t1 = true ∧ todaySelected t1 = false ∧
    toggleCompleted (H:=exampleHost) "a" s1 = Normal undefined s2 ∧
    tasks s2 !! 0%nat = Some t2 ∧
    completed t2 = false ∧ todaySelected t2 = false.
Proof.
  apply (toggleCompleted_twice (H:=exampleHost) exampleState 0
           (mkTask "a" "Read a book" "Want" "Later" 1 false true 10 10));
    reflexivity.
Defined.

(** ** Clearing the selection *)

Section Clear.
Context `{Host}.

(** C10. [clearTodaySelections] completes normally, keeps the number and the
    order of the tasks, sets [todaySelected] to [false] on each of them and
    leaves every other field as it was, [updatedAt] included; it does not
    read the clock.  By contrast [updateTask], [toggleCompleted] and
    [setTodaySelected] store a reading of the clock in [updatedAt] of the
    tasks they change. *)
Theorem clearTodaySelections_frame (s : State) :
  (∃ s',
     clearTodaySelections s = Normal undefined s' ∧
     clockCalls s' = clockCalls s ∧
     Forall2 (λ t t',
       todaySelected t' = false ∧
       id t' = id t ∧ name t' = name t ∧ type t' = type t ∧
       timing t' = timing t ∧ weight t' = weight t ∧
       completed t' = completed t ∧ createdAt t' = createdAt t ∧
       updatedAt t' = updatedAt t) (tasks s) (tasks s')) ∧
  (∀ i u b,
     (∃ s', updateTask i u s = Normal undefined s' ∧
            Forall2 (updatedAtRefreshed i) (tasks s) (tasks s')) ∧
     (∃ s', toggleCompleted i s = Normal undefined s' ∧
            Forall2 (updatedAtRefreshed i) (tasks s) (tasks s')) ∧
     (∃ s', setTodaySelected i b s = Normal undefined s' ∧
            Forall2 (updatedAtRefreshed i) (tasks s) (tasks s'))).
Proof.
  split.
  - eexists. split; [reflexivity |]. split; [reflexivity |].
    cbn [tasks]. apply Forall2_fmap_r, Forall_Forall2_diag, Forall_forall.
    intros t _. repeat split.
  - intros i u b. repeat split.
    all: apply setTasks_mapM_Forall2; intros t s0; unfold updatedAtRefreshed.
    all: destruct (id t =? i)%string; cbn [negb].
    all: try (exists t, s0; split; reflexivity).
    all: eexists _, _; (split; [reflexivity |]); eexists; reflexivity.
Qed.

End Clear.

(** ** Operations on an id that no task has *)

Lemma filter_unchanged {A} (P : A → Prop) `{∀ x, Decision (P x)} (l : list A) :
  Forall P l → filter P l = l.
Proof.
  induction 1 as [|x l Hx _ IH]; [reflexivity |].
  rewrite filter_cons_True by exact Hx. by rewrite IH.
Qed.

Lemma missing_id_NotFound_counterexample :
  removeTask "zz" exampleState = Normal undefined exampleState ∧
  removeTask "zz" exampleState ≠ Throw NotFoundError ∧
  updateTask (H:=exampleHost) "zz" no_updates exampleState ≠ Throw NotFoundError ∧
  toggleCompleted (H:=exampleHost) "zz" exampleState ≠ Throw NotFoundError ∧
  setTodaySelected (H:=exampleHost) "zz" true exampleState ≠ Throw NotFoundError.
Proof. split; [reflexivity |]. repeat split; discriminate. Qed.

Section Missing.
Context `{Host}.

Lemma eqb_missing (i : string) (l : list Task) (t : Task) :
  i ∉ id <$> l → t ∈ l → (id t =? i)%string = false.
Proof.
  intros Hi Ht. apply String.eqb_neq. intros <-.
  apply Hi, list_elem_of_fmap. by exists t.
Qed.

(** C7, amended. For every id that no task of the store has, [updateTask],
    [removeTask], [toggleCompleted] and [setTodaySelected] complete normally,
    without an error of any kind, and leave the task collection (and the
    rest of the state) unchanged. *)
Theorem missing_id_is_noop (s : State) (i : string) (u : Updates) (b : bool) :
  i ∉ id <$> tasks s →
  updateTask i u s = Normal undefined s ∧
  removeTask i s = Normal undefined s ∧
  toggleCompleted i s = Normal undefined s ∧
  setTodaySelected i b s = Normal undefined s.
Proof.
  intros Hi.
  assert (Hmap : ∀ f : Task → M Task,
            (∀ t, t ∈ tasks s → f t = mret t) →
            setTasks (mapM f) s = Normal undefined s).
  { intros f Hf. rewrite (setTasks_Normal _ s (tasks s) s).
    - by rewrite State_eta.
    - by apply mapM_unchanged. }
  repeat split.
  - apply Hmap. intros t Ht. by rewrite (eqb_missing i _ t Hi Ht).
  - unfold removeTask. rewrite (setTasks_Normal _ s (tasks s) s).
    + by rewrite State_eta.
    + unfold mret, M_ret. f_equal. apply filter_unchanged, Forall_forall.
      intros t Ht Heq. apply Hi, list_elem_of_fmap. by exists t.
  - apply Hmap. intros t Ht. by rewrite (eqb_missing i _ t Hi Ht).
  - apply Hmap. intros t Ht. by rewrite (eqb_missing i _ t Hi Ht).
Qed.

End Missing.

Lemma missing_id_is_noop_witness :
  updateTask (H:=exampleHost) "zz" no_updates exampleState = Normal undefined exampleState ∧
  removeTask "zz" exampleState = Normal undefined exampleState ∧
  toggleCompleted (H:=exampleHost) "zz" exampleState = Normal undefined exampleState ∧
  setTodaySelected (H:=exampleHost) "zz" true exampleState = Normal undefined exampleState.
Proof.
  apply (missing_id_is_noop (H:=exampleHost) exampleState "zz" no_updates true).
  vm_compute. intros Hin. repeat (apply elem_of_cons in Hin as [Hin | Hin]; [discriminate Hin |]).
  by apply elem_of_nil in Hin.
Defined.

(** ** Adding a task *)

Lemma trimEnd_idem s : trimEnd (trimEnd s) = trimEnd s.
Proof.
  induction s as [|c s IH]; [reflexivity |].
  cbn [trimEnd]. destruct (trimEnd s) as [|a r] eqn:E.
  - destruct (isWhiteSpace c) eqn:Ec; [reflexivity |].
    cbn [trimEnd]. by rewrite Ec.
  - cbn [trimEnd] in *. by rewrite IH.
Qed.

Lemma trimStart_head s :
  trimStart s = EmptyString ∨
  ∃ c r, trimStart s = String c r ∧ isWhiteSpace c = false.
Proof.
  induction s as [|c s IH]; [by left |].
  cbn [trimStart]. destruct (isWhiteSpace c) eqn:Ec; [exact IH |].
  right. by exists c, s.
Qed.

Lemma trimEnd_head c r :
  isWhiteSpace c = false → ∃ r', trimEnd (String c r) = String c r'.
Proof.
  intros Ec. cbn [trimEnd]. destruct (trimEnd r); rewrite ?Ec; eauto.
Qed.

Lemma trim_idem s : trim (trim s) = trim s.
Proof.
  unfold trim. destruct (trimStart_head s) as [-> | (c & r & -> & Ec)]; [reflexivity |].
  destruct (trimEnd_head c r Ec) as (r' & E).
  assert (Hs : trimStart (trimEnd (String c r)) = trimEnd (String c r)).
  { rewrite E. cbn [trimStart]. by rewrite Ec. }
  rewrite Hs. apply trimEnd_idem.
Qed.


Lemma computeWeight_ext (a b : Task) :
  type a = type b → timing a = timing b → computeWeight a = computeWeight b.
Proof. unfold computeWeight. by intros -> ->. Qed.

Section Add.
Context `{Host}.

Lemma addTask_Normal nm ty tm s :
  addTask nm ty tm s =
    Normal undefined
      (mkState
         (mkTask (uuidv4 (uuidCalls s)) (trim nm) ty tm
                 (computeWeight (mkTask (uuidv4 (uuidCalls s)) (trim nm) ty tm 0 false false
                                   (Date_now (clockCalls s)) (Date_now (S (clockCalls s)))))
                 false false
                 (Date_now (clockCalls s)) (Date_now (S (clockCalls s)))
          :: tasks s)
         (lastActiveDate s) (isInitialised s) (S (uuidCalls s)) (S (S (clockCalls s)))).
Proof. reflexivity. Qed.


End Add.


(** ** The weight invariant *)

Lemma weightComputed_set_weight t :
  weightComputed (set_weight (computeWeight t) t).
Proof. reflexivity. Qed.

Lemma Forall2_transfer {A B} (P : A → Prop) (Q : B → Prop) l l' :
  Forall2 (λ x y, P x → Q y) l l' → Forall P l → Forall Q l'.
Proof.
  induction 1 as [|x y l l' Hxy _ IH]; intros HP; [constructor |].
  apply Forall_cons in HP as [Hx Hl]. constructor; auto.
Qed.

Section Invariant.
Context `{Host}.

Lemma setTasks_mapM_preserves (f : Task → M Task) s :
  (∀ t s0, ∃ t' s1, f t s0 = Normal t' s1 ∧ (weightComputed t → weightComputed t')) →
  Forall weightComputed (tasks s) →
  ∃ s', setTasks (mapM f) s = Normal undefined s' ∧ Forall weightComputed (tasks s').
Proof.
  intros Hf Hinv.
  destruct (setTasks_mapM_Forall2 f (λ t t', weightComputed t → weightComputed t') s Hf)
    as (s' & E & HF).
  exists s'. split; [exact E |]. by eapply Forall2_transfer.
Qed.

Lemma updateTask_callback i u t s0 :
  ∃ t' s1,
    (if negb (id t =? i)%string then mret t
     else now ← call_Date_now;
          let updated := set_updatedAt now (spread t u) in
          mret (set_weight (computeWeight updated) updated)) s0 = Normal t' s1 ∧
    (if (id t =? i)%string
     then type t' = default (type t) (u_type u) ∧
          timing t' = default (timing t) (u_timing u) ∧
          weightComputed t'
     else t' = t).
Proof.
  destruct (id t =? i)%string; cbn [negb].
  - eexists _, _. split; [reflexivity |].
    split; [reflexivity |]. split; [reflexivity |]. reflexivity.
  - exists t, s0. split; reflexivity.
Qed.

Lemma init_Readable_Some parsed dateStr s :
  init (Readable (Some parsed) dateStr) s =
    Normal undefined
      (mkState ((λ t, set_weight (computeWeight t) t) <$> parsed) dateStr true
               (uuidCalls s) (clockCalls s)).
Proof. reflexivity. Qed.

(** [init] overwrites every weight it is handed: the loaded state does not
    depend on the weights of the parsed list. *)
Lemma init_reads_no_weight (f : Task → Number) parsed dateStr s :
  init (Readable (Some ((λ t, set_weight (f t) t) <$> parsed)) dateStr) s =
  init (Readable (Some parsed) dateStr) s.
Proof.
  rewrite !init_Readable_Some. do 2 f_equal.
  rewrite <- list_fmap_compose. by apply list_fmap_ext.
Qed.

Lemma init_Readable_None dateStr s :
  init (Readable None dateStr) s =
    Normal undefined
      (mkState
         [ mkTask (uuidv4 (uuidCalls s)) "Read a book" "Want" "Later" 1 false false
                  (Date_now (clockCalls s)) (Date_now (S (clockCalls s)));
           mkTask (uuidv4 (S (uuidCalls s))) "Pay bills" "Need" "Today" 4 false false
                  (Date_now (S (S (clockCalls s)))) (Date_now (S (S (S (clockCalls s)))));
           mkTask (uuidv4 (S (S (uuidCalls s)))) "Exercise" "Both" "Today" 6 false false
                  (Date_now (S (S (S (S (clockCalls s))))))
                  (Date_now (S (S (S (S (S (clockCalls s))))))) ]
         dateStr true (S (S (S (uuidCalls s)))) (S (S (S (S (S (S (clockCalls s)))))))).
Proof. vm_compute. reflexivity. Qed.

Lemma runOp_preserves o s :
  Forall weightComputed (tasks s) →
  ∃ s', runOp o s = Normal undefined s' ∧ Forall weightComputed (tasks s').
Proof.
  intros Hinv. destruct o as [st | nm ty tm | i u | i | i | i b |]; cbn [runOp].
  - destruct st as [[parsed |] dateStr |].
    + eexists. split; [apply init_Readable_Some |]. cbn [tasks].
      apply Forall_fmap, Forall_forall. intros t _. apply weightComputed_set_weight.
    + eexists. split; [apply init_Readable_None |]. cbn [tasks].
      repeat constructor; vm_compute; reflexivity.
    + exists (mkState (tasks s) (lastActiveDate s) true (uuidCalls s) (clockCalls s)).
      split; [reflexivity | exact Hinv].
  - eexists. split; [apply addTask_Normal |]. cbn [tasks].
    constructor; [reflexivity | exact Hinv].
  - apply setTasks_mapM_preserves; [| exact Hinv]. intros t s0.
    destruct (updateTask_callback i u t s0) as (t' & s1 & E & Ht').
    exists t', s1. split; [exact E |].
    destruct (id t =? i)%string; [tauto | by subst].
  - eexists. split; [reflexivity |]. cbn [tasks].
    apply Forall_forall. intros t Ht. apply list_elem_of_filter in Ht as [_ Ht].
    by eapply Forall_forall in Hinv.
  - apply setTasks_mapM_preserves; [| exact Hinv]. intros t s0.
    destruct (id t =? i)%string.
    + eexists _, _. split; [reflexivity |]. exact (λ Ht, Ht).
    + exists t, s0. split; [reflexivity | tauto].
  - apply setTasks_mapM_preserves; [| exact Hinv]. intros t s0.
    destruct (id t =? i)%string.
    + eexists _, _. split; [reflexivity |]. exact (λ Ht, Ht).
    + exists t, s0. split; [reflexivity | tauto].
  - eexists. split; [reflexivity |]. cbn [tasks].
    apply Forall_fmap. eapply Forall_impl; [exact Hinv |]. intros t Ht. exact Ht.
Qed.

Lemma runOps_preserves os s :
  Forall weightComputed (tasks s) →
  ∃ s', runOps os s = Normal undefined s' ∧ Forall weightComputed (tasks s').
Proof.
  revert s. induction os as [|o os IH]; intros s Hinv.
  - exists s. split; [reflexivity | exact Hinv].
  - destruct (runOp_preserves o s Hinv) as (s1 & E1 & H1).
    destruct (IH s1 H1) as (s2 & E2 & H2).
    exists s2. split; [| exact H2].
    cbn [runOps]. by rewrite (bind_Normal _ _ _ _ _ E1).
Qed.

(** C8. Every operation stores the weight that [computeWeight] gives for
    the task's current type and timing, so that after any sequence of
    operations, loading included, each stored weight is the computed one.
    But the computed weight is not always the product of the table: a task
    added under the type [constructor] and the timing [Today] is stored
    with weight [NaN], where the table gives 1 × 2 = 2. *)
Theorem weight_computed_not_always_derived :
  (∀ os s, Forall weightComputed (tasks s) →
     ∃ s', runOps os s = Normal undefined s' ∧ Forall weightComputed (tasks s')) ∧
  (∀ s, ∃ s' t,
     addTask "Nap" "constructor" "Today" s = Normal undefined s' ∧
     tasks s' = t :: tasks s ∧
     type t = "constructor" ∧ timing t = "Today" ∧
     weight t = NaN ∧
     typeWeight_spec (type t) * timingWeight_spec (timing t) = 2).
Proof.
  split; [exact runOps_preserves |].
  intros s. eexists _, _. split; [apply addTask_Normal |].
  cbn [tasks type timing weight]. repeat split.
Qed.

End Invariant.

(** ** Sorting *)

Lemma elem_of_sort_insert {A} (cmp : A → A → Number) x y l :
  y ∈ sort_insert cmp x l ↔ y = x ∨ y ∈ l.
Proof.
  induction l as [|z l IH]; cbn [sort_insert].
  - rewrite list_elem_of_singleton, elem_of_nil. tauto.
  - destruct (sortCompare (cmp x z) <=? 0).
    + by rewrite elem_of_cons.
    + rewrite !elem_of_cons, IH. tauto.
Qed.

Lemma elem_of_sort {A} (cmp : A → A → Number) y l :
  y ∈ sort cmp l ↔ y ∈ l.
Proof.
  unfold sort. induction l as [|x l IH]; [reflexivity |].
  cbn [foldr]. by rewrite elem_of_sort_insert, elem_of_cons, IH.
Qed.

(** A comparator that is consistent on the elements that satisfy [P] sorts
    the lists of such elements. *)
Section Sorted.
Context {A : Type} (cmp : A → A → Number) (P : A → Prop).
Hypothesis cmp_total :
  ∀ a b, P a → P b → 0 < sortCompare (cmp a b) → sortCompare (cmp b a) ≤ 0.
Hypothesis cmp_trans :
  ∀ a b c, P a → P b → P c →
    sortCompare (cmp a b) ≤ 0 → sortCompare (cmp b c) ≤ 0 → sortCompare (cmp a c) ≤ 0.



End Sorted.




(** ** Elimination candidates *)

Section Candidates.
Context `{Host}.

(** C1. For every store, [getEliminationCandidates] returns, without
    changing the store, a list that holds no completed task, has at most 10
    tasks, and whose tasks carry at most 5 distinct weights. *)
Theorem getEliminationCandidates_bounds (s : State) :
  ∃ l,
    getEliminationCandidates s = Normal l s ∧
    Forall (λ t, completed t = false) l ∧
    (length l ≤ 10)%nat ∧
    (size (list_to_set (weight <$> l) : gset Number) ≤ 5)%nat.
Proof.
  eexists. split; [reflexivity |].
  set (pending := filter (λ t, completed t = false) (tasks s)).
  set (sorted := sort compareTasks pending).
  set (uniqueWeights :=
         take 5 (sort (λ a b, Number_sub b a) (Set_from (weight <$> sorted)))).
  set (filtered := filter (λ t, includes uniqueWeights (weight t) = true) sorted).
  split; [| split].
  - apply Forall_forall. intros t Ht.
    apply elem_of_take in Ht as (k & Ht & _).
    apply list_elem_of_lookup_2 in Ht.
    apply list_elem_of_filter in Ht as [_ Ht].
    apply elem_of_sort in Ht.
    by apply list_elem_of_filter in Ht as [Ht _].
  - rewrite length_take. lia.
  - transitivity (length uniqueWeights); [| unfold uniqueWeights; rewrite length_take; lia].
    unfold size, set_size. cbn.
    apply submseteq_length, NoDup_submseteq; [apply NoDup_elements |].
    intros w Hw. apply elem_of_elements, elem_of_list_to_set in Hw.
    apply list_elem_of_fmap in Hw as (t & -> & Ht).
    apply elem_of_take in Ht as (k & Ht & _).
    apply list_elem_of_lookup_2 in Ht.
    apply list_elem_of_filter in Ht as [Ht _].
    unfold includes in Ht. by apply bool_decide_eq_true in Ht.
Qed.

(** C9. Two calls of [getEliminationCandidates] in a row, with nothing
    changing the store in between, return the same sequence, and leave the
    store as it was. *)
Theorem getEliminationCandidates_repeatable (s : State) :
  ∃ l,
    getEliminationCandidates s = Normal l s ∧
    (first ← getEliminationCandidates;
     second ← getEliminationCandidates;
     mret (first, second)) s = Normal (l, l) s.
Proof. eexists. split; reflexivity. Qed.


End Candidates.

(** ** The example host's comparison is a consistent comparator *)






(** ** Examples *)

(** The seeded list of a first launch, in candidate order. *)
Example candidates_of_first_launch :
  ∃ s l,
    init (H:=exampleHost) (Readable None None) initialState = Normal undefined s ∧
    tasks s =
      [ mkTask "0" "Read a book" "Want" "Later" 1 false false 1000 1001;
        mkTask "1" "Pay bills" "Need" "Today" 4 false false 1002 1003;
        mkTask "2" "Exercise" "Both" "Today" 6 false false 1004 1005 ] ∧
    getEliminationCandidates (H:=exampleHost) s = Normal l s ∧
    name <$> l = ["Exercise"; "Pay bills"; "Read a book"].
Proof. eexists _, _. split; [vm_compute; reflexivity |]. repeat split. Qed.

(** Completed tasks are left out; equal weights are ordered by name. *)
Example candidates_of_exampleState :
  getEliminationCandidates (H:=exampleHost) exampleState =
  Normal [ mkTask "c" "Exercise" "Both" "Today" 6 false false 30 30;
           mkTask "d" "Call home" "Need" "Today" 4 false true 40 40;
           mkTask "a" "Read a book" "Want" "Later" 1 false true 10 10 ]
         exampleState.
Proof. vm_compute. reflexivity. Qed.

(** A session: load a stale weight, add, update, toggle, select, clear,
    remove. *)
Example exampleSession_result :
  runOps (H:=exampleHost) exampleSession initialState =
  Normal undefined
    (mkState [ mkTask "p" "Water plants" "Both" "Later" 3 true false 5 1003 ]
             (Some "2024-01-01") true 1 5).
Proof. vm_compute. reflexivity. Qed.

Example trim_examples :
  trim "  Buy milk  " = "Buy milk" ∧ trim "   " = "" ∧ trim "a b" = "a b".
Proof. repeat split. Qed.

(** * Further properties of the store and the screens *)

(** ** The range of the computed weight *)

(** Whatever a task's type and timing hold, its computed weight is one of
    1, 2, 3, 4, 6 and [NaN], never zero, negative, 5 or above 6; it is [NaN]
    exactly when the type or the timing names a property that the tables
    inherit from [Object.prototype]. *)
Theorem computeWeight_range (t : Task) :
  computeWeight t ∈ [Num 1; Num 2; Num 3; Num 4; Num 6; NaN] ∧
  (computeWeight t = NaN ↔ type t ∈ Object_prototype ∨ timing t ∈ Object_prototype).
Proof.
  split; [| apply computeWeight_NaN_iff].
  destruct (decide (type t ∈ Object_prototype ∨ timing t ∈ Object_prototype)) as [Hin | Hout].
  - apply computeWeight_NaN_iff in Hin. rewrite Hin. set_solver.
  - rewrite computeWeight_table by tauto.
    pose proof (table_product_values (type t) (timing t)) as Hv.
    rewrite !elem_of_cons in *. tauto.
Qed.

(** ** Callbacks that may read the clock *)

Lemma sameSession_refl s : sameSession s s.
Proof. unfold sameSession. repeat split; lia. Qed.

Lemma sameSession_trans s1 s2 s3 :
  sameSession s1 s2 → sameSession s2 s3 → sameSession s1 s3.
Proof.
  intros (A1 & B1 & C1 & D1) (A2 & B2 & C2 & D2).
  repeat split; [congruence .. | lia].
Qed.

Lemma mapM_Forall2_session {A B} (f : A → M B) (R : A → B → Prop) l :
  (∀ x s, ∃ y s', f x s = Normal y s' ∧ R x y ∧ sameSession s s' ∧ tasks s' = tasks s) →
  ∀ s, ∃ l' s',
    mapM f l s = Normal l' s' ∧ Forall2 R l l' ∧ sameSession s s' ∧ tasks s' = tasks s.
Proof.
  intros Hf. induction l as [|x l IH]; intros s.
  - exists [], s. split; [reflexivity |]. split; [constructor |].
    split; [apply sameSession_refl | reflexivity].
  - destruct (Hf x s) as (y & s1 & Ey & Hy & Hs1 & Ht1).
    destruct (IH s1) as (ys & s2 & Eys & Hys & Hs2 & Ht2).
    exists (y :: ys), s2. split.
    + cbn [mapM]. rewrite (bind_Normal _ _ _ _ _ Ey).
      by rewrite (bind_Normal _ _ _ _ _ Eys).
    + split; [by constructor |].
      split; [by eapply sameSession_trans | congruence].
Qed.

Lemma setTasks_mapM_session (f : Task → M Task) (R : Task → Task → Prop) s :
  (∀ x s0, ∃ y s1, f x s0 = Normal y s1 ∧ R x y ∧ sameSession s0 s1 ∧ tasks s1 = tasks s0) →
  ∃ s', setTasks (mapM f) s = Normal undefined s' ∧
        Forall2 R (tasks s) (tasks s') ∧ sameSession s s'.
Proof.
  intros Hf.
  destruct (mapM_Forall2_session f R (tasks s) Hf s) as (l' & s1 & E & HF & Hs & _).
  rewrite (setTasks_Normal _ _ _ _ E). eexists. split; [reflexivity |].
  split; [exact HF | exact Hs].
Qed.

(** ** What the single-task operations change and keep *)

Section Mutators.
Context `{Host}.

Lemma call_Date_now_session s :
  sameSession s
    (mkState (tasks s) (lastActiveDate s) (isInitialised s) (uuidCalls s) (S (clockCalls s))).
Proof. unfold sameSession. cbn. repeat split; lia. Qed.

(** [removeTask] completes normally; the list it leaves holds, in their
    old order, exactly the tasks whose id differs from the given one, the
    rest of the state is untouched, and calling it again with the same id
    changes nothing. *)
Theorem removeTask_deletes (s : State) (i : string) :
  ∃ s',
    removeTask i s = Normal undefined s' ∧
    (∀ t, t ∈ tasks s' ↔ id t ≠ i ∧ t ∈ tasks s) ∧
    sublist (tasks s') (tasks s) ∧
    (i ∉ id <$> tasks s') ∧
    sameSession s s' ∧ clockCalls s' = clockCalls s ∧
    removeTask i s' = Normal undefined s'.
Proof.
  eexists. split; [reflexivity |]. cbn [tasks clockCalls].
  split; [intros t; exact (list_elem_of_filter (λ t, id t ≠ i) (tasks s) t) |].
  split; [apply sublist_filter |].
  split.
  - intros Hi. apply list_elem_of_fmap in Hi as (t & -> & Ht).
    apply list_elem_of_filter in Ht as [Ht _]. by apply Ht.
  - split; [unfold sameSession; cbn; repeat split; lia |]. split; [reflexivity |].
    unfold removeTask, setTasks, mret, M_ret. cbn [tasks].
    by rewrite list_filter_filter_l.
Qed.

(** [setTodaySelected] completes normally and keeps the number and order of
    the tasks; a task with the given id gets the given flag and a reading
    of the clock in [updatedAt], its other fields staying as they were; a
    task with another id is not changed at all. *)
Theorem setTodaySelected_sets (s : State) (i : string) (selected : bool) :
  ∃ s',
    setTodaySelected i selected s = Normal undefined s' ∧
    sameSession s s' ∧
    Forall2 (λ t t',
      if (id t =? i)%string then
        todaySelected t' = selected ∧ (∃ n, updatedAt t' = Date_now n) ∧
        id t' = id t ∧ name t' = name t ∧ type t' = type t ∧
        timing t' = timing t ∧ weight t' = weight t ∧
        completed t' = completed t ∧ createdAt t' = createdAt t
      else t' = t) (tasks s) (tasks s').
Proof.
  unfold setTodaySelected.
  edestruct setTasks_mapM_session as (s' & E & HF & Hs);
    [| exists s'; split; [exact E |]; split; [exact Hs | exact HF]].
  intros t s0. cbn beta. destruct (id t =? i)%string.
  - eexists _, _. split; [reflexivity |]. split.
    + cbn. split; [reflexivity |]. split; [by eexists |]. repeat split.
    + split; [apply call_Date_now_session | reflexivity].
  - exists t, s0. split; [reflexivity |]. split; [reflexivity |].
    split; [apply sameSession_refl | reflexivity].
Qed.

Lemma updateTask_Forall2 (s : State) (i : string) (u : Updates) :
  ∃ s',
    updateTask i u s = Normal undefined s' ∧
    sameSession s s' ∧
    Forall2 (λ t t',
      if (id t =? i)%string then
        ∃ n, t' = set_weight
                    (computeWeight (set_updatedAt (Date_now n) (spread t u)))
                    (set_updatedAt (Date_now n) (spread t u))
      else t' = t) (tasks s) (tasks s').
Proof.
  unfold updateTask.
  edestruct setTasks_mapM_session as (s' & E & HF & Hs);
    [| exists s'; split; [exact E |]; split; [exact Hs | exact HF]].
  intros t s0. cbn beta. destruct (id t =? i)%string; cbn [negb].
  - eexists _, _. split; [reflexivity |]. split.
    + eexists. reflexivity.
    + split; [apply call_Date_now_session | reflexivity].
  - exists t, s0. split; [reflexivity |]. split; [reflexivity |].
    split; [apply sameSession_refl | reflexivity].
Qed.

(** [updateTask] completes normally and keeps the number and order of the
    tasks.  In a task with the given id every property that the updates
    carry replaces the old one (the id included) and every other one is
    kept, except that [updatedAt] is a reading of the clock and [weight] is
    the one computed from the merged type and timing, whatever the updates
    say of these two; a task with another id is not changed at all. *)
Theorem updateTask_merges (s : State) (i : string) (u : Updates) :
  ∃ s',
    updateTask i u s = Normal undefined s' ∧
    sameSession s s' ∧
    Forall2 (λ t t',
      if (id t =? i)%string then
        id t' = default (id t) (u_id u) ∧
        name t' = default (name t) (u_name u) ∧
        type t' = default (type t) (u_type u) ∧
        timing t' = default (timing t) (u_timing u) ∧
        completed t' = default (completed t) (u_completed u) ∧
        todaySelected t' = default (todaySelected t) (u_todaySelected u) ∧
        createdAt t' = default (createdAt t) (u_createdAt u) ∧
        (∃ n, updatedAt t' = Date_now n) ∧
        weight t' = computeWeight t'
      else t' = t) (tasks s) (tasks s').
Proof.
  destruct (updateTask_Forall2 s i u) as (s' & E & Hs & HF).
  exists s'. split; [exact E |]. split; [exact Hs |].
  eapply Forall2_impl; [exact HF |]. intros t t' Ht. cbn beta in *.
  destruct (id t =? i)%string; [| exact Ht].
  destruct Ht as (n & ->). cbn. repeat split. by exists n.
Qed.

(** [toggleCompleted] completes normally and keeps the number and order of
    the tasks; in a task with the given id it changes nothing but
    [completed], [todaySelected] and [updatedAt], which becomes a reading of
    the clock; a task with another id is not changed at all. *)
Theorem toggleCompleted_keeps (s : State) (i : string) :
  ∃ s',
    toggleCompleted i s = Normal undefined s' ∧
    sameSession s s' ∧
    Forall2 (λ t t',
      if (id t =? i)%string then
        id t' = id t ∧ name t' = name t ∧ type t' = type t ∧
        timing t' = timing t ∧ weight t' = weight t ∧
        createdAt t' = createdAt t ∧ (∃ n, updatedAt t' = Date_now n)
      else t' = t) (tasks s) (tasks s').
Proof.
  unfold toggleCompleted.
  edestruct setTasks_mapM_session as (s' & E & HF & Hs);
    [| exists s'; split; [exact E |]; split; [exact Hs | exact HF]].
  intros t s0. cbn beta. destruct (id t =? i)%string.
  - eexists _, _. split; [reflexivity |]. split.
    + cbn. repeat split. by eexists.
    + split; [apply call_Date_now_session | reflexivity].
  - exists t, s0. split; [reflexivity |]. split; [reflexivity |].
    split; [apply sameSession_refl | reflexivity].
Qed.

(** ** Saving an edited task *)

Lemma trim_nonblank_eqb s : trim s ≠ "" → (trim s =? "")%string = false.
Proof. intros Hne. by apply String.eqb_neq. Qed.

(** When a task is being edited and the name input is not blank,
    [handleSave] updates the store and adds no task: every task with the
    edited task's id takes the trimmed name (which is not empty and has no
    surrounding white space), the type and the timing of the form and the
    weight computed from them, and keeps its id, its two flags and
    [createdAt]; the other tasks are not changed.  The handler then stops
    at the haptics call: a [TypeError] escapes it and the modal is not
    closed. *)
Theorem handleSave_edits (f : Form) (s : State) (t0 : Task) :
  editingTask f = Some t0 →
  trim (nameInput f) ≠ "" →
  ∃ s',
    handleSave f s = Normal (Uncaught TypeError) s' ∧
    sameSession s s' ∧
    Forall2 (λ t t',
      if (id t =? id t0)%string then
        name t' = trim (nameInput f) ∧ name t' ≠ "" ∧ trim (name t') = name t' ∧
        type t' = typeInput f ∧ timing t' = timingInput f ∧
        weight t' = computeWeight t' ∧
        id t' = id t ∧ completed t' = completed t ∧
        todaySelected t' = todaySelected t ∧ createdAt t' = createdAt t
      else t' = t) (tasks s) (tasks s').
Proof.
  intros Hedit Hne. unfold handleSave.
  rewrite (trim_nonblank_eqb _ Hne), Hedit.
  destruct (updateTask_Forall2 s (id t0)
              (mkUpdates None (Some (trim (nameInput f))) (Some (typeInput f))
                 (Some (timingInput f)) None None None None None))
    as (s' & E & Hs & HF).
  exists s'. split; [by rewrite (bind_Normal _ _ _ _ _ E) |].
  split; [exact Hs |].
  eapply Forall2_impl; [exact HF |]. intros t t' Ht. cbn beta in *.
  destruct (id t =? id t0)%string; [| exact Ht].
  destruct Ht as (n & ->). cbn.
  split; [reflexivity |]. split; [exact Hne |]. split; [apply trim_idem |].
  repeat split.
Qed.

(** Opening the edit form on a task of the store and saving at once changes
    nothing in that task but [updatedAt], provided the task's name is
    trimmed and not empty and its weight is the computed one; as after
    every save that passes the validation, a [TypeError] escapes the
    handler at the haptics call and the modal is not closed. *)
Theorem edit_and_save_unchanged (s : State) (k : nat) (t : Task) :
  tasks s !! k = Some t →
  trim (name t) = name t →
  name t ≠ "" →
  weightComputed t →
  ∃ s' n,
    handleSave (openEditModal t) s = Normal (Uncaught TypeError) s' ∧
    tasks s' !! k = Some (set_updatedAt (Date_now n) t) ∧
    length (tasks s') = length (tasks s).
Proof.
  intros Hk Htrim Hne Hw. unfold handleSave, openEditModal.
  cbn [nameInput typeInput timingInput editingTask].
  rewrite Htrim. apply String.eqb_neq in Hne. rewrite Hne.
  destruct (updateTask_Forall2 s (id t)
              (mkUpdates None (Some (name t)) (Some (type t)) (Some (timing t))
                 None None None None None))
    as (s' & E & Hs & HF).
  destruct (Forall2_lookup_l _ _ _ _ _ HF Hk) as (t' & Hk' & Ht').
  rewrite String.eqb_refl in Ht'. destruct Ht' as (n & ->).
  exists s', n. split; [by rewrite (bind_Normal _ _ _ _ _ E) |].
  split; [| symmetry; by eapply Forall2_length].
  rewrite Hk'. f_equal. unfold weightComputed in Hw.
  assert (Hspread : spread t (mkUpdates None (Some (name t)) (Some (type t))
                                (Some (timing t)) None None None None None) = t)
    by (by destruct t).
  rewrite Hspread.
  change (computeWeight (set_updatedAt (Date_now n) t)) with (computeWeight t).
  rewrite <- Hw. by destruct t.
Qed.

End Mutators.

Lemma handleSave_edits_witness :
  ∃ s',
    handleSave (H:=exampleHost)
      (mkForm (Some (mkTask "c" "Exercise" "Both" "Today" 6 false false 30 30))
              " Go for a run " "Need" "Later") exampleState =
      Normal (Uncaught TypeError) s' ∧
    sameSession exampleState s' ∧
    Forall2 (λ t t',
      if (id t =? "c")%string then
        name t' = "Go for a run" ∧ name t' ≠ "" ∧ trim (name t') = name t' ∧
        type t' = "Need" ∧ timing t' = "Later" ∧
        weight t' = computeWeight t' ∧
        id t' = id t ∧ completed t' = completed t ∧
        todaySelected t' = todaySelected t ∧ createdAt t' = createdAt t
      else t' = t) (tasks exampleState) (tasks s').
Proof.
  apply (handleSave_edits (H:=exampleHost)
           (mkForm (Some (mkTask "c" "Exercise" "Both" "Today" 6 false false 30 30))
                   " Go for a run " "Need" "Later")
           exampleState (mkTask "c" "Exercise" "Both" "Today" 6 false false 30 30));
    [reflexivity | discriminate].
Defined.

Lemma edit_and_save_unchanged_witness :
  ∃ s' n,
    handleSave (H:=exampleHost)
      (openEditModal (mkTask "c" "Exercise" "Both" "Today" 6 false false 30 30))
      exampleState = Normal (Uncaught TypeError) s' ∧
    tasks s' !! 2%nat =
      Some (set_updatedAt (Date_now (Host:=exampleHost) n)
              (mkTask "c" "Exercise" "Both" "Today" 6 false false 30 30)) ∧
    length (tasks s') = length (tasks exampleState).
Proof.
  apply (edit_and_save_unchanged (H:=exampleHost) exampleState 2
           (mkTask "c" "Exercise" "Both" "Today" 6 false false 30 30));
    [reflexivity | reflexivity | discriminate | reflexivity].
Defined.

(** ** The daily check *)

Section NewDay.
Context `{Host} `{Calendar}.

(** While no date has been recorded, [isNewDay] answers [true]; it changes
    neither the tasks nor the recorded date. *)
Theorem isNewDay_without_date (s : State) :
  lastActiveDate s = None →
  ∃ s',
    isNewDay s = Normal true s' ∧
    tasks s' = tasks s ∧ lastActiveDate s' = None.
Proof.
  intros Hnone. eexists. split.
  - unfold isNewDay, todayStr, getLastActiveDate, mbind, M_bind, mret, M_ret, call_Date_now.
    cbn. rewrite Hnone. reflexivity.
  - cbn. split; reflexivity.
Qed.

(** [updateLastActiveDate] records the date of its reading of the clock and
    leaves the tasks alone.  Once the provider has rendered the new state,
    [isNewDay] answers [true] exactly when its own reading falls on another
    date than the recorded one, so [false] on the same day.  The [isNewDay]
    of the render before the update, called after it, still compares with
    the date of that render. *)
Theorem updateLastActiveDate_then_isNewDay (s : State) :
  ∃ s1 s2,
    updateLastActiveDate s = Normal undefined s1 ∧
    lastActiveDate s1 = Some (toISODate (Date_now (clockCalls s))) ∧
    tasks s1 = tasks s ∧
    isNewDay s1 =
      Normal (bool_decide (toISODate (Date_now (clockCalls s)) ≠
                           toISODate (Date_now (S (clockCalls s))))) s2 ∧
    asRendered s isNewDay s1 =
      Normal (bool_decide (lastActiveDate s ≠
                           Some (toISODate (Date_now (S (clockCalls s)))))) s2.
Proof.
  eexists _, _. split; [reflexivity |]. cbn [lastActiveDate tasks].
  split; [reflexivity |]. split; [reflexivity |]. split.
  - unfold isNewDay, todayStr, getLastActiveDate, mbind, M_bind, mret, M_ret, call_Date_now.
    cbn. f_equal. apply bool_decide_ext. split; congruence.
  - reflexivity.
Qed.

End NewDay.

Lemma isNewDay_without_date_witness :
  ∃ s',
    isNewDay (H:=exampleHost) (H0:=exampleCalendar) initialState = Normal true s' ∧
    tasks s' = tasks initialState ∧ lastActiveDate s' = None.
Proof.
  apply (isNewDay_without_date (H:=exampleHost) (H0:=exampleCalendar) initialState).
  reflexivity.
Defined.

(** ** Saving and loading *)

Lemma fmap_set_weight_derived (l : list Task) :
  Forall weightDerived l → (λ t, set_weight (computeWeight t) t) <$> l = l.
Proof.
  induction 1 as [|t l [Ht _] _ IH]; [reflexivity |].
  cbn [fmap list_fmap]. f_equal; [| exact IH].
  rewrite <- Ht. by destruct t.
Qed.

Lemma exampleTasks_derived : Forall weightDerived exampleTasks.
Proof.
  unfold exampleTasks.
  repeat (apply Forall_cons; split; [split; [vm_compute; reflexivity | discriminate] |]).
  apply Forall_nil_2.
Qed.

Section Persistence.
Context `{Host}.

(** Restart.  What an initialised provider with derived weights has saved
    is what the next mount loads: the same tasks in the same order (an
    empty list stays empty, the samples are not seeded again) and the
    recorded date, or the date already on the device when none is recorded. *)
Theorem restart_restores (s s0 : State) (d : Disk) :
  isInitialised s = true →
  Forall weightDerived (tasks s) →
  ∃ s',
    init (readDisk (persist s d)) s0 = Normal undefined s' ∧
    tasks s' = tasks s ∧
    isInitialised s' = true ∧
    lastActiveDate s' =
      match lastActiveDate s with
      | Some ds => if (ds =? "")%string then dateItem d else Some ds
      | None => dateItem d
      end.
Proof.
  intros Hinit Hw. unfold persist, persistLastActiveDate, persistTasks.
  rewrite Hinit. cbn [negb].
  assert (Hload : ∀ dt, init (readDisk (mkDisk (Parsable (tasks s)) dt)) s0 =
                        Normal undefined (mkState (tasks s) dt true (uuidCalls s0) (clockCalls s0))).
  { intros dt. unfold readDisk. cbn [tasksItem dateItem].
    rewrite init_Readable_Some. by rewrite fmap_set_weight_derived. }
  destruct (lastActiveDate s) as [ds |]; [destruct (ds =? "")%string |];
    eexists; (split; [apply Hload |]); cbn; repeat split.
Qed.

(** Mount, then the first save.  Nothing is written while the provider is
    not initialised.  After [init] the provider is initialised whatever
    the device held, and the save stores its task list, whose weights are
    the computed ones; when the stored text could not be parsed, that list
    is the empty one, which replaces the text. *)
Theorem mount_then_save (d : Disk) :
  (∀ s, isInitialised s = false → persist s d = d) ∧
  ∃ s',
    init (readDisk d) initialState = Normal undefined s' ∧
    isInitialised s' = true ∧
    tasksItem (persist s' d) = Parsable (tasks s') ∧
    Forall weightComputed (tasks s') ∧
    (tasksItem d = Unparsable → tasks s' = []).
Proof.
  split.
  - intros s Hs. unfold persist, persistLastActiveDate, persistTasks. by rewrite Hs.
  - assert (Hsave : ∀ s', isInitialised s' = true →
                          tasksItem (persist s' d) = Parsable (tasks s')).
    { intros s' Hs'. unfold persist, persistLastActiveDate, persistTasks.
      rewrite Hs'. cbn [negb].
      destruct (lastActiveDate s') as [ds |]; [destruct (ds =? "")%string |]; reflexivity. }
    unfold readDisk. destruct (tasksItem d) as [| l |] eqn:Ed.
    + eexists. split; [apply init_Readable_None |].
      split; [reflexivity |]. split; [by apply Hsave |].
      split; [| discriminate]. cbn [tasks]. repeat constructor; vm_compute; reflexivity.
    + eexists. split; [apply init_Readable_Some |].
      split; [reflexivity |]. split; [by apply Hsave |].
      split; [| discriminate]. cbn [tasks].
      apply Forall_fmap, Forall_forall. intros t _. apply weightComputed_set_weight.
    + exists (mkState [] None true 0 0).
      split; [reflexivity |]. split; [reflexivity |]. split; [by apply Hsave |].
      split; [constructor | reflexivity].
Qed.

End Persistence.

Lemma restart_restores_witness :
  ∃ s',
    init (H:=exampleHost) (readDisk (persist dayState (mkDisk Unparsable None))) initialState =
      Normal undefined s' ∧
    tasks s' = tasks dayState ∧
    isInitialised s' = true ∧
    lastActiveDate s' = Some "1970-01-01".
Proof.
  apply (restart_restores (H:=exampleHost) dayState initialState (mkDisk Unparsable None)).
  - reflexivity.
  - exact exampleTasks_derived.
Defined.

Lemma mount_then_save_witness :
  persist initialState (mkDisk Unparsable (Some "1970-01-01")) =
    mkDisk Unparsable (Some "1970-01-01") ∧
  ∃ s',
    init (H:=exampleHost) (readDisk (mkDisk Unparsable (Some "1970-01-01"))) initialState =
      Normal undefined s' ∧
    tasks s' = [].
Proof.
  destruct (mount_then_save (H:=exampleHost) (mkDisk Unparsable (Some "1970-01-01")))
    as (Hnot & s' & E & _ & _ & _ & Hempty).
  split.
  - apply Hnot. reflexivity.
  - exists s'. split; [exact E |]. apply Hempty. reflexivity.
Defined.

(** ** More on sorting and on sets of weights *)

Lemma sort_insert_Permutation {A} (cmp : A → A → Number) x l :
  sort_insert cmp x l ≡ₚ x :: l.
Proof.
  induction l as [|y l IH]; cbn [sort_insert]; [reflexivity |].
  destruct (sortCompare (cmp x y) <=? 0); [reflexivity |].
  rewrite IH. apply Permutation_swap.
Qed.

Lemma sort_Permutation {A} (cmp : A → A → Number) l : sort cmp l ≡ₚ l.
Proof.
  unfold sort. induction l as [|x l IH]; [reflexivity |].
  cbn [foldr]. by rewrite sort_insert_Permutation, IH.
Qed.

Lemma sort_fmap {A} (cmp : A → A → Number) (g : A → A) (l : list A) :
  (∀ a b, cmp (g a) (g b) = cmp a b) →
  sort cmp (g <$> l) = g <$> sort cmp l.
Proof.
  intros Hg. unfold sort. induction l as [|x l IH]; [reflexivity |].
  cbn [fmap list_fmap foldr]. fold (g <$> l). rewrite IH.
  generalize (foldr (sort_insert cmp) [] l). intros k.
  induction k as [|y k IHk]; [reflexivity |].
  cbn [fmap list_fmap sort_insert]. fold (g <$> k). rewrite Hg.
  destruct (sortCompare (cmp x y) <=? 0); [reflexivity |].
  cbn [fmap list_fmap]. by rewrite <- IHk.
Qed.

Lemma filter_fmap_same {A} (P : A → Prop) `{∀ x, Decision (P x)} (g : A → A)
    (l : list A) :
  (∀ x, P (g x) ↔ P x) →
  filter P (g <$> l) = g <$> filter P l.
Proof.
  intros Hg. induction l as [|x l IH]; [reflexivity |].
  cbn [fmap list_fmap]. fold (g <$> l). rewrite !filter_cons, IH.
  destruct (decide (P x)) as [Hx | Hx]; destruct (decide (P (g x))) as [Hgx | Hgx];
    try reflexivity; exfalso; first [by apply Hgx, Hg | by apply Hx, Hg].
Qed.

Lemma filter_nil_iff {A} (P : A → Prop) `{∀ x, Decision (P x)} (l : list A) :
  filter P l = [] ↔ Forall (λ x, ¬ P x) l.
Proof.
  induction l as [|x l IH]; [by split; [constructor |] |].
  rewrite filter_cons, Forall_cons. destruct (decide (P x)); [| tauto].
  split; [discriminate | tauto].
Qed.

Lemma Set_from_acc (l acc : list Number) :
  NoDup acc →
  NoDup (foldl Set_add acc l) ∧ ∀ x, x ∈ foldl Set_add acc l ↔ x ∈ acc ∨ x ∈ l.
Proof.
  revert acc. induction l as [|y l IH]; intros acc Hacc; cbn [foldl].
  - split; [exact Hacc |]. intros x. rewrite elem_of_nil. tauto.
  - unfold Set_add at 2 4. case_bool_decide as Hy.
    + destruct (IH acc Hacc) as [Hnd Hin]. split; [exact Hnd |].
      intros x. rewrite Hin, elem_of_cons. split; [tauto |].
      intros [? | [-> | ?]]; tauto.
    + assert (Hacc' : NoDup (acc ++ [y])).
      { apply NoDup_app. split; [exact Hacc |]. split; [| apply NoDup_singleton].
        intros x Hx Hx'. apply list_elem_of_singleton in Hx'. by subst. }
      destruct (IH _ Hacc') as [Hnd Hin]. split; [exact Hnd |].
      intros x. rewrite Hin, elem_of_app, list_elem_of_singleton, elem_of_cons. tauto.
Qed.

Lemma NoDup_Set_from l : NoDup (Set_from l).
Proof. apply (Set_from_acc l []), NoDup_nil_2. Qed.

Lemma elem_of_Set_from l x : x ∈ Set_from l ↔ x ∈ l.
Proof.
  unfold Set_from. destruct (Set_from_acc l [] (NoDup_nil_2)) as [_ Hin].
  rewrite Hin, elem_of_nil. tauto.
Qed.

Lemma weightDerived_table t :
  weightDerived t →
  weight t = Num (typeWeight_spec (type t) * timingWeight_spec (timing t)).
Proof.
  intros [Hw Hn]. rewrite Hw in *.
  destruct (decide (type t ∈ Object_prototype ∨ timing t ∈ Object_prototype)) as [Hin | Hout].
  - by apply computeWeight_NaN_iff in Hin.
  - apply computeWeight_table; tauto.
Qed.

Lemma weightDerived_range t :
  weightDerived t → weight t ∈ [Num 1; Num 2; Num 3; Num 4; Num 6].
Proof.
  intros [Hw Hn]. rewrite Hw in *.
  destruct (decide (type t ∈ Object_prototype ∨ timing t ∈ Object_prototype)) as [Hin | Hout].
  - by apply computeWeight_NaN_iff in Hin.
  - rewrite computeWeight_table by tauto. apply table_product_values.
Qed.

(** ** More on the elimination candidates *)

Section MoreCandidates.
Context `{Host}.

(** Every candidate is a task of the store, and no task is offered more
    often than the store holds it. *)
Theorem candidates_from_store (s : State) :
  ∃ l, getEliminationCandidates s = Normal l s ∧ l ⊆+ tasks s.
Proof.
  eexists. split; [reflexivity |].
  etransitivity; [apply sublist_submseteq, sublist_take |].
  etransitivity; [apply sublist_submseteq, sublist_filter |].
  etransitivity; [apply Permutation_submseteq, sort_Permutation |].
  apply sublist_submseteq, sublist_filter.
Qed.

Lemma candidates_of_derived (s : State) :
  Forall weightDerived (tasks s) →
  getEliminationCandidates s =
    Normal (take 10 (sort compareTasks (filter (λ t, completed t = false) (tasks s)))) s.
Proof.
  intros Hw. unfold getEliminationCandidates.
  set (pending := filter (λ t, completed t = false) (tasks s)).
  set (sorted := sort compareTasks pending).
  set (unique := Set_from (weight <$> sorted)).
  assert (Hrange : ∀ t, t ∈ sorted → weight t ∈ [Num 1; Num 2; Num 3; Num 4; Num 6]).
  { intros t Ht. apply weightDerived_range.
    apply elem_of_sort, list_elem_of_filter in Ht as [_ Ht].
    by eapply Forall_forall in Hw. }
  assert (Hlen : (length (sort (λ a b, Number_sub b a) unique) ≤ 5)%nat).
  { rewrite (Permutation_length (sort_Permutation _ unique)).
    change 5%nat with (length [Num 1; Num 2; Num 3; Num 4; Num 6]).
    apply submseteq_length, NoDup_submseteq; [apply NoDup_Set_from |].
    intros w Hin. apply elem_of_Set_from, list_elem_of_fmap in Hin as (t & -> & Ht).
    by apply Hrange. }
  rewrite (take_ge _ 5 Hlen). f_equal. f_equal.
  apply filter_unchanged, Forall_forall. intros t Ht.
  unfold includes. apply bool_decide_eq_true.
  apply elem_of_sort, elem_of_Set_from, list_elem_of_fmap. by exists t.
Qed.

(** In a store whose weights are derived, the filter on the five highest
    distinct weights drops nothing: the candidates are the first ten of the
    incomplete tasks in the order of the comparator.  The list is empty
    exactly when every task is completed, and when at most ten tasks are
    incomplete all of them are candidates. *)
Theorem candidates_are_top_ten (s : State) :
  Forall weightDerived (tasks s) →
  ∃ l,
    getEliminationCandidates s = Normal l s ∧
    l = take 10 (sort compareTasks (filter (λ t, completed t = false) (tasks s))) ∧
    (l = [] ↔ Forall (λ t, completed t = true) (tasks s)) ∧
    ((length (filter (λ t, completed t = false) (tasks s)) ≤ 10)%nat →
     l ≡ₚ filter (λ t, completed t = false) (tasks s)).
Proof.
  intros Hw. eexists. split; [by apply candidates_of_derived |].
  split; [reflexivity |].
  set (pending := filter (λ t, completed t = false) (tasks s)).
  assert (Hnil : sort compareTasks pending = [] ↔ pending = []).
  { rewrite <- !length_zero_iff_nil.
    by rewrite (Permutation_length (sort_Permutation compareTasks pending)). }
  split.
  - split.
    + intros Hl. apply take_nil_inv in Hl as [Hl | Hl]; [discriminate |].
      apply Hnil, filter_nil_iff in Hl.
      eapply Forall_impl; [exact Hl |]. intros t Ht. cbn beta in Ht.
      by destruct (completed t).
    + intros Hall. assert (Hp : pending = []).
      { apply filter_nil_iff. eapply Forall_impl; [exact Hall |].
        intros t Ht. cbn beta. by rewrite Ht. }
      apply Hnil in Hp. rewrite Hp. apply take_nil.
  - intros Hlen. rewrite take_ge; [apply sort_Permutation |].
    by rewrite (Permutation_length (sort_Permutation compareTasks pending)).
Qed.

(** Clearing the selection does not change who the candidates are nor
    their order: once the provider has rendered the cleared list,
    [getEliminationCandidates] returns the former candidates with
    [todaySelected] cleared.  The [getEliminationCandidates] of the render
    before the clearing, called after it, still returns the former
    candidates as they were. *)
Theorem clearTodaySelections_keeps_candidates (s : State) :
  ∃ l s1,
    getEliminationCandidates s = Normal l s ∧
    clearTodaySelections s = Normal undefined s1 ∧
    getEliminationCandidates s1 = Normal (set_todaySelected false <$> l) s1 ∧
    asRendered s getEliminationCandidates s1 = Normal l s1.
Proof.
  eexists _, _. split; [reflexivity |]. split; [reflexivity |]. split.
  - unfold getEliminationCandidates. cbn [tasks]. f_equal.
    rewrite (filter_fmap_same (λ t, completed t = false)) by (intros t; reflexivity).
    rewrite (sort_fmap compareTasks) by (intros a b; reflexivity).
    rewrite <- list_fmap_compose.
    rewrite (list_fmap_ext (weight ∘ set_todaySelected false) weight)
      by (intros; reflexivity).
    rewrite (filter_fmap_same (λ t, includes _ (weight t) = true))
      by (intros t; reflexivity).
    by rewrite fmap_take.
  - reflexivity.
Qed.

End MoreCandidates.

Lemma candidates_are_top_ten_witness :
  ∃ l,
    getEliminationCandidates (H:=exampleHost) exampleState = Normal l exampleState ∧
    l = take 10 (sort (compareTasks (H:=exampleHost))
                   (filter (λ t, completed t = false) (tasks exampleState))) ∧
    (l = [] ↔ Forall (λ t, completed t = true) (tasks exampleState)) ∧
    ((length (filter (λ t, completed t = false) (tasks exampleState)) ≤ 10)%nat →
     l ≡ₚ filter (λ t, completed t = false) (tasks exampleState)).
Proof.
  apply (candidates_are_top_ten (H:=exampleHost) exampleState).
  exact exampleTasks_derived.
Defined.

(** ** The Today screen *)

Lemma NoDup_fmap_elem_eq {A B} (f : A → B) (l : list A) x y :
  NoDup (f <$> l) → x ∈ l → y ∈ l → f x = f y → x = y.
Proof.
  induction l as [|z l IH]; intros Hnd Hx Hy Hf; [by apply elem_of_nil in Hx |].
  cbn [fmap list_fmap] in Hnd. fold (f <$> l) in Hnd.
  apply NoDup_cons in Hnd as [Hz Hnd].
  apply elem_of_cons in Hx as [-> | Hx]; apply elem_of_cons in Hy as [-> | Hy].
  - reflexivity.
  - exfalso. apply Hz. rewrite Hf. by apply list_elem_of_fmap_2.
  - exfalso. apply Hz. rewrite <- Hf. by apply list_elem_of_fmap_2.
  - by apply IH.
Qed.

Section Today.
Context `{Host} `{Calendar}.

Lemma toggleCompleted_session (i : string) (s : State) :
  ∃ s',
    toggleCompleted i s = Normal undefined s' ∧
    sameSession s s' ∧
    Forall2 (λ t t',
      if (id t =? i)%string then
        ∃ n, t' = set_updatedAt (Date_now n)
                    (set_todaySelected (if completed t then todaySelected t else false)
                       (set_completed (negb (completed t)) t))
      else t' = t) (tasks s) (tasks s').
Proof.
  unfold toggleCompleted.
  edestruct setTasks_mapM_session as (s' & E & HF & Hs);
    [| exists s'; split; [exact E |]; split; [exact Hs | exact HF]].
  intros t s0. cbn beta. destruct (id t =? i)%string.
  - eexists _, _. split; [reflexivity |]. split; [by eexists |].
    split; [apply call_Date_now_session | reflexivity].
  - exists t, s0. split; [reflexivity |]. split; [reflexivity |].
    split; [apply sameSession_refl | reflexivity].
Qed.

(** Toggling, one after the other, the ids of a list of tasks with distinct
    ids toggles once every stored task with one of these ids and leaves the
    others alone. *)
Lemma forEach_toggleCompleted (l : list Task) :
  NoDup (id <$> l) →
  ∀ s, ∃ s',
    forEach (λ task, toggleCompleted (id task)) l s = Normal undefined s' ∧
    sameSession s s' ∧
    Forall2 (λ t t',
      if bool_decide (id t ∈ id <$> l) then
        ∃ n, t' = set_updatedAt (Date_now n)
                    (set_todaySelected (if completed t then todaySelected t else false)
                       (set_completed (negb (completed t)) t))
      else t' = t) (tasks s) (tasks s').
Proof.
  induction l as [|x l IH]; intros Hnd s.
  - exists s. split; [reflexivity |]. split; [apply sameSession_refl |].
    apply Forall_Forall2_diag, Forall_forall. intros t _.
    rewrite bool_decide_eq_false_2; [reflexivity | apply not_elem_of_nil].
  - cbn [fmap list_fmap] in Hnd. fold (id <$> l) in Hnd.
    apply NoDup_cons in Hnd as [Hx Hnd].
    destruct (toggleCompleted_session (id x) s) as (s1 & E1 & Hs1 & HF1).
    destruct (IH Hnd s1) as (s' & E' & Hs' & HF').
    exists s'. split; [cbn [forEach]; by rewrite (bind_Normal _ _ _ _ _ E1) |].
    split; [by eapply sameSession_trans |].
    eapply Forall2_trans; [| exact HF1 | exact HF'].
    intros t t1 t' Ht1 Ht'. cbn beta in *.
    cbn [fmap list_fmap]. fold (id <$> l).
    destruct (String.eqb_spec (id t) (id x)) as [Eid | Nid].
    + destruct Ht1 as (n & ->). cbn [id set_updatedAt set_todaySelected set_completed] in Ht'.
      rewrite bool_decide_eq_false_2 in Ht' by (by rewrite Eid).
      subst t'. rewrite bool_decide_eq_true_2 by (rewrite Eid; left).
      by exists n.
    + subst t1. case_bool_decide as Hin.
      * rewrite bool_decide_eq_true_2 by (by right). exact Ht'.
      * rewrite bool_decide_eq_false_2; [exact Ht' |].
        intros [? | ?]%elem_of_cons; tauto.
Qed.

(** "Day Complete".  When the ids of the store are distinct,
    [handleDayComplete] completes every task of the Today list (selected
    for today and not completed) and clears its [todaySelected] flag,
    leaving its id, name, type, timing, weight and [createdAt]; all other
    tasks are unchanged, and the Today list is empty afterwards.  The
    handler then stops at the haptics call: a [TypeError] escapes it and
    the alert is not shown. *)
Theorem handleDayComplete_completes (s : State) :
  NoDup (id <$> tasks s) →
  ∃ s',
    handleDayComplete s = Normal (Uncaught TypeError) s' ∧
    sameSession s s' ∧
    Forall2 (λ t t',
      if todaySelected t && negb (completed t) then
        completed t' = true ∧ todaySelected t' = false ∧
        id t' = id t ∧ name t' = name t ∧ type t' = type t ∧
        timing t' = timing t ∧ weight t' = weight t ∧ createdAt t' = createdAt t
      else t' = t) (tasks s) (tasks s') ∧
    todayTasks (tasks s') = [].
Proof.
  intros Hnd.
  set (P := λ t : Task, todaySelected t && negb (completed t) = true).
  assert (Hperm : todayTasks (tasks s) ≡ₚ filter P (tasks s)) by apply sort_Permutation.
  assert (Hnd' : NoDup (id <$> todayTasks (tasks s))).
  { rewrite Hperm. eapply sublist_NoDup; [exact Hnd |].
    apply fmap_sublist, sublist_filter. }
  destruct (forEach_toggleCompleted _ Hnd' s) as (s' & E & Hs & HF).
  assert (HF' : Forall2 (λ t t',
      if todaySelected t && negb (completed t) then
        completed t' = true ∧ todaySelected t' = false ∧
        id t' = id t ∧ name t' = name t ∧ type t' = type t ∧
        timing t' = timing t ∧ weight t' = weight t ∧ createdAt t' = createdAt t
      else t' = t) (tasks s) (tasks s')).
  { apply Forall2_same_length_lookup. split; [by eapply Forall2_length |].
    intros k t t' Hk Hk'.
    pose proof (Forall2_lookup_lr _ _ _ _ _ _ HF Hk Hk') as Ht. cbn beta in Ht.
    assert (Hin : t ∈ tasks s) by (by eapply list_elem_of_lookup_2).
    destruct (todaySelected t && negb (completed t)) eqn:EP.
    - rewrite bool_decide_eq_true_2 in Ht.
      + destruct Ht as (n & ->).
        apply andb_true_iff in EP as [_ Hc]. apply negb_true_iff in Hc.
        cbn. rewrite Hc. repeat split.
      + apply list_elem_of_fmap_2. rewrite Hperm.
        apply list_elem_of_filter. by split.
    - rewrite bool_decide_eq_false_2 in Ht; [exact Ht |].
      intros (y & Hid & Hy)%list_elem_of_fmap.
      rewrite Hperm in Hy. apply list_elem_of_filter in Hy as [HPy Hy].
      assert (t = y) by exact (NoDup_fmap_elem_eq id (tasks s) t y Hnd Hin Hy Hid).
      subst y. unfold P in HPy. congruence. }
  exists s'. split.
  - unfold handleDayComplete. by rewrite (bind_Normal _ _ _ _ _ E).
  - split; [exact Hs |]. split; [exact HF' |].
    unfold todayTasks.
    assert (Hnone : filter P (tasks s') = []).
    { apply filter_nil_iff.
      apply (Forall2_transfer (λ _ : Task, True) (λ t', ¬ P t') (tasks s) (tasks s')).
      - eapply Forall2_impl; [exact HF' |]. intros t t' Ht _. unfold P. cbn beta in Ht.
        destruct (todaySelected t && negb (completed t)) eqn:EP.
        + destruct Ht as (Hc & _). rewrite Hc. cbn [negb]. rewrite andb_false_r. discriminate.
        + subst t'. rewrite EP. discriminate.
      - apply Forall_forall. tauto. }
    fold P. rewrite Hnone. reflexivity.
Qed.

(** The answers to "Re-prioritise today's focus?".  "Yes" clears every
    selection, so that the Today list is empty, keeps the recorded date and
    opens the elimination screen; "No" leaves the tasks as they are and
    records the date of the clock's reading. *)
Theorem promptForReprioritise_answers (s : State) :
  (∃ s',
     promptForReprioritise true s = Normal (Some "Elimination") s' ∧
     todayTasks (tasks s') = [] ∧
     lastActiveDate s' = lastActiveDate s ∧
     Forall2 (λ t t', t' = set_todaySelected false t) (tasks s) (tasks s')) ∧
  (∃ s',
     promptForReprioritise false s = Normal None s' ∧
     tasks s' = tasks s ∧
     lastActiveDate s' = Some (toISODate (Date_now (clockCalls s)))).
Proof.
  split.
  - eexists. split; [reflexivity |]. cbn [tasks lastActiveDate].
    split; [| split; [reflexivity |]].
    + unfold todayTasks.
      assert (Hnone : filter (λ t, todaySelected t && negb (completed t) = true)
                        (set_todaySelected false <$> tasks s) = []).
      { apply filter_nil_iff, Forall_fmap, Forall_forall. intros t _. cbn. discriminate. }
      by rewrite Hnone.
    + apply Forall2_fmap_r, Forall_Forall2_diag, Forall_forall. by intros t _.
  - eexists. split; [reflexivity |]. split; reflexivity.
Qed.

End Today.

Lemma handleDayComplete_completes_witness :
  ∃ s',
    handleDayComplete (H:=exampleHost) exampleState = Normal (Uncaught TypeError) s' ∧
    sameSession exampleState s' ∧
    Forall2 (λ t t',
      if todaySelected t && negb (completed t) then
        completed t' = true ∧ todaySelected t' = false ∧
        id t' = id t ∧ name t' = name t ∧ type t' = type t ∧
        timing t' = timing t ∧ weight t' = weight t ∧ createdAt t' = createdAt t
      else t' = t) (tasks exampleState) (tasks s') ∧
    todayTasks (H:=exampleHost) (tasks s') = [].
Proof.
  apply (handleDayComplete_completes (H:=exampleHost) exampleState).
  vm_compute. repeat constructor; rewrite ?elem_of_cons, ?elem_of_nil;
    intuition discriminate.
Defined.

(** Two tasks of the Today list under one id are toggled twice each by
    "Day Complete" and end up incomplete. *)
Example handleDayComplete_shared_id :
  handleDayComplete (H:=exampleHost)
    (mkState [ mkTask "x" "One" "Want" "Today" 2 false true 1 1;
               mkTask "x" "Two" "Want" "Today" 2 false true 2 2 ] None true 0 0) =
  Normal (Uncaught TypeError)
    (mkState [ mkTask "x" "One" "Want" "Today" 2 false false 1 1002;
               mkTask "x" "Two" "Want" "Today" 2 false false 2 1003 ] None true 0 4).
Proof. vm_compute. reflexivity. Qed.

(** ** Distinct ids *)

Lemma Forall2_same_ids (l l' : list Task) :
  Forall2 (λ t t', id t' = id t) l l' → id <$> l' = id <$> l.
Proof.
  induction 1 as [|t t' l l' Ht _ IH]; [reflexivity |].
  cbn [fmap list_fmap]. fold (id <$> l) (id <$> l'). by rewrite Ht, IH.
Qed.

Lemma tally_inj (j k : nat) : tally j = tally k → j = k.
Proof.
  revert k. induction j as [|j IH]; intros [|k] E; try discriminate; [reflexivity |].
  injection E as E. f_equal. by apply IH.
Qed.

Section DistinctIds.
Context `{Host}.
Hypothesis uuidv4_inj : ∀ j k, uuidv4 j = uuidv4 k → j = k.

Lemma idsIssued_same_ids (s s' : State) :
  id <$> tasks s' = id <$> tasks s →
  uuidCalls s' = uuidCalls s →
  idsIssued s → idsIssued s'.
Proof. unfold idsIssued. intros -> ->. tauto. Qed.

Lemma idsIssued_mapM (f : Task → M Task) (s : State) :
  (∀ x s0, ∃ y s1, f x s0 = Normal y s1 ∧ id y = id x ∧
                   sameSession s0 s1 ∧ tasks s1 = tasks s0) →
  idsIssued s →
  ∃ s', setTasks (mapM f) s = Normal undefined s' ∧ idsIssued s'.
Proof.
  intros Hf Hs.
  destruct (setTasks_mapM_session f (λ t t', id t' = id t) s Hf) as (s' & E & HF & Hsess).
  exists s'. split; [exact E |].
  apply (idsIssued_same_ids s s'); [by apply Forall2_same_ids | apply Hsess | exact Hs].
Qed.

Lemma idsIssued_fresh (s : State) (t : Task) (tl : list Task) (n : nat) :
  idsIssued s →
  id t = uuidv4 (uuidCalls s) →
  (uuidCalls s < n)%nat →
  idsIssued (mkState (t :: tasks s) (lastActiveDate s) (isInitialised s) n (clockCalls s)).
Proof.
  intros [Hnd Hall] Hid Hn. unfold idsIssued. cbn [tasks uuidCalls fmap list_fmap].
  fold (id <$> tasks s). split.
  - apply NoDup_cons. split; [| exact Hnd].
    intros Hin. eapply Forall_forall in Hall as (k & Hk & Hik); [| exact Hin].
    rewrite Hid in Hik. apply uuidv4_inj in Hik. lia.
  - constructor; [exists (uuidCalls s); by split |].
    eapply Forall_impl; [exact Hall |]. intros i (k & Hk & ->). exists k. split; [lia | reflexivity].
Qed.

Lemma runOp_keeps_ids (o : Op) (s : State) :
  keepsIds o = true →
  idsIssued s →
  ∃ s', runOp o s = Normal undefined s' ∧ idsIssued s'.
Proof.
  intros Ho Hs. destruct o as [st | nm ty tm | i u | i | i | i b |]; cbn [runOp].
  - destruct st as [[parsed |] dateStr |]; [discriminate Ho | |].
    + eexists. split; [apply init_Readable_None |].
      unfold idsIssued. cbn [tasks uuidCalls fmap list_fmap id]. split.
      * repeat (apply NoDup_cons; split); try apply NoDup_nil_2;
          rewrite ?elem_of_cons, ?elem_of_nil;
          intros Hin; repeat destruct Hin as [Hin | Hin]; try done;
          apply uuidv4_inj in Hin; lia.
      * repeat constructor; eexists; (split; [| reflexivity]); lia.
    + exists (mkState (tasks s) (lastActiveDate s) true (uuidCalls s) (clockCalls s)).
      split; [reflexivity | exact Hs].
  - eexists. split; [apply addTask_Normal |].
    pose proof (idsIssued_fresh s
      (mkTask (uuidv4 (uuidCalls s)) (trim nm) ty tm
              (typeWeight_spec ty * timingWeight_spec tm) false false
              (Date_now (clockCalls s)) (Date_now (S (clockCalls s))))
      [] (S (uuidCalls s)) Hs eq_refl (Nat.lt_succ_diag_r _)) as [Hnd Hall].
    split; [exact Hnd | exact Hall].
  - cbn [keepsIds] in Ho. apply bool_decide_eq_true in Ho.
    apply idsIssued_mapM; [| exact Hs]. intros t s0.
    destruct (id t =? i)%string; cbn [negb].
    + eexists _, _. split; [reflexivity |]. split; [cbn; by rewrite Ho |].
      split; [| reflexivity]. unfold sameSession. cbn. repeat split; lia.
    + exists t, s0. split; [reflexivity |]. split; [reflexivity |].
      split; [apply sameSession_refl | reflexivity].
  - eexists. split; [reflexivity |]. destruct Hs as [Hnd Hall].
    assert (Hsub : sublist (id <$> filter (λ t, id t ≠ i) (tasks s)) (id <$> tasks s))
      by apply fmap_sublist, sublist_filter.
    split; cbn [tasks uuidCalls].
    + eapply sublist_NoDup; [exact Hnd | exact Hsub].
    + apply Forall_forall. intros j Hj. eapply Forall_forall in Hall; [exact Hall |].
      apply list_elem_of_fmap in Hj as (t & -> & Ht).
      apply list_elem_of_filter in Ht as [_ Ht]. by apply list_elem_of_fmap_2.
  - apply idsIssued_mapM; [| exact Hs]. intros t s0.
    destruct (id t =? i)%string.
    + eexists _, _. split; [reflexivity |]. split; [reflexivity |].
      split; [| reflexivity]. unfold sameSession. cbn. repeat split; lia.
    + exists t, s0. split; [reflexivity |]. split; [reflexivity |].
      split; [apply sameSession_refl | reflexivity].
  - apply idsIssued_mapM; [| exact Hs]. intros t s0.
    destruct (id t =? i)%string.
    + eexists _, _. split; [reflexivity |]. split; [reflexivity |].
      split; [| reflexivity]. unfold sameSession. cbn. repeat split; lia.
    + exists t, s0. split; [reflexivity |]. split; [reflexivity |].
      split; [apply sameSession_refl | reflexivity].
  - eexists. split; [reflexivity |].
    apply (idsIssued_same_ids s); [| reflexivity | exact Hs].
    cbn [tasks]. rewrite <- list_fmap_compose. by apply list_fmap_ext.
Qed.

(** With an id generator that never repeats, a session keeps the ids of the
    store distinct, each of them issued by [uuidv4], as long as it loads no
    persisted list and no update carries an id: seeding, adding, updating,
    removing, toggling, selecting and clearing all preserve this. *)
Theorem ids_stay_distinct (os : list Op) (s : State) :
  Forall (λ o, keepsIds o = true) os →
  idsIssued s →
  ∃ s', runOps os s = Normal undefined s' ∧ idsIssued s'.
Proof.
  intros Hos. revert s. induction Hos as [|o os Ho _ IH]; intros s Hs.
  - exists s. split; [reflexivity | exact Hs].
  - destruct (runOp_keeps_ids o s Ho Hs) as (s1 & E1 & H1).
    destruct (IH s1 H1) as (s2 & E2 & H2).
    exists s2. split; [| exact H2].
    cbn [runOps]. by rewrite (bind_Normal _ _ _ _ _ E1).
Qed.

End DistinctIds.

Lemma ids_stay_distinct_witness :
  ∃ s', runOps (H:=tallyHost) idSession initialState = Normal undefined s' ∧
        idsIssued (H:=tallyHost) s'.
Proof.
  apply (ids_stay_distinct (H:=tallyHost) tally_inj idSession initialState).
  - repeat constructor.
  - split; constructor.
Defined.
